(** * cashcov: a typed read-through cache over a Redis-compatible store

    Shallow embedding of the Go package [cache] (files cache.go, helper.go,
    lock.go, types.go, policies and config) and the properties of its
    miss-policy engine, refresh ledger and keyed mutex.

    Conventions of the embedding
    - [time.Duration] and clock readings are [Z] (nanoseconds);
    - [float64] thresholds and betas are exact rationals, with the IEEE
      special values that a division by zero produces kept apart ([F]);
    - the handler's mutable state, the backend and the environment's
      choices (transport faults, random draws) form one [World], threaded
      through a state monad whose runs also return the list of effects
      they performed, oldest first;
    - [go f(...)] queues a [Task]; a task runs later, as one atomic step. *)

From Stdlib Require Import ZArith QArith Lia.
From stdpp Require Import base option gmap strings list.

Local Open Scope Z_scope.

(** ** Durations and clock readings *)

Module Time.

Definition maxDuration : Z := 2 ^ 63 - 1.
Definition minDuration : Z := - 2 ^ 63.

Definition Second : Z := 1000000000.

(** [Time.Sub] saturates instead of wrapping. *)
Definition Sub (t u : Z) : Z :=
  let d := t - u in
  if maxDuration <? d then maxDuration
  else if d <? minDuration then minDuration
  else d.

(** [time.Since(t)] at clock reading [now]. *)
Definition Since (now t : Z) : Z := Sub now t.

End Time.

(** ** float64, idealised

    Finite values are exact rationals; the values that [x / 0] yields are
    kept as constructors so that comparisons against them behave as in
    IEEE 754 (every comparison with NaN is false). *)

Inductive F : Type :=
| Fin (q : Q)
| PInf
| NInf
| NaN.

Definition Qltb (x y : Q) : bool := negb (Qle_bool y x).

Definition Qsgn (q : Q) : Z := Z.sgn (Qnum q).

Module Float.

Definition ofInt (z : Z) : F := Fin (inject_Z z).

Definition div (x y : F) : F :=
  match x, y with
  | Fin a, Fin b =>
      if Qeq_bool b 0 then
        match Qsgn a with
        | Z0 => NaN
        | Zpos _ => PInf
        | Zneg _ => NInf
        end
      else Fin (a / b)
  | Fin _, (PInf | NInf) => Fin 0
  | PInf, Fin b => if Qle_bool 0 b then PInf else NInf
  | NInf, Fin b => if Qle_bool 0 b then NInf else PInf
  | _, _ => NaN
  end.

Definition mul (x y : F) : F :=
  match x, y with
  | Fin a, Fin b => Fin (a * b)
  | PInf, Fin b | Fin b, PInf =>
      match Qsgn b with Z0 => NaN | Zpos _ => PInf | Zneg _ => NInf end
  | NInf, Fin b | Fin b, NInf =>
      match Qsgn b with Z0 => NaN | Zpos _ => NInf | Zneg _ => PInf end
  | PInf, PInf | NInf, NInf => PInf
  | PInf, NInf | NInf, PInf => NInf
  | _, _ => NaN
  end.

Definition le (x y : F) : bool :=
  match x, y with
  | NaN, _ | _, NaN => false
  | NInf, _ => true
  | _, PInf => true
  | PInf, _ => false
  | _, NInf => false
  | Fin a, Fin b => Qle_bool a b
  end.

Definition lt (x y : F) : bool :=
  match x, y with
  | NaN, _ | _, NaN => false
  | PInf, _ => false
  | _, NInf => false
  | NInf, _ => true
  | _, PInf => true
  | Fin a, Fin b => Qltb a b
  end.

End Float.

(** ** types.go, policies *)

Inductive MissPolicy : Type :=
| MissPolicySyncWriteThenReturn
| MissPolicyReturnThenAsyncWrite
| MissPolicyStaleWhileRevalidate
| MissPolicyFailFast
| MissPolicyRefreshAhead
| MissPolicyCooperativeRefresh
| MissPolicyBestEffort
| MissPolicyProbabilisticRefresh
| MissPolicyUnknown (n : Z).   (* any other value of the underlying int *)

(** Errors.  [ErrNil] is [redis.Nil]; [ErrWrap] is [fmt.Errorf("p: %w", e)]. *)
Inductive error : Type :=
| ErrNil
| ErrTransport
| ErrMarshal
| ErrUnmarshal
| ErrUser (code : Z)
| ErrCacheMissFailFast
| ErrUnknownPolicy (p : MissPolicy)
| ErrWrap (prefix : string) (e : error).

(** [errors.Is(err, redis.Nil)]: follows the [%w] chain. *)
Fixpoint is_redis_Nil (e : error) : bool :=
  match e with
  | ErrNil => true
  | ErrWrap _ e' => is_redis_Nil e'
  | _ => false
  end.

Definition bytes : Type := list Byte.byte.

(** The serializer of the value type ([encoding/json] at type [T]) and the
    zero value of [T]. *)
Class Codec (T : Type) : Type := {
  zero : T;
  marshal : T -> option bytes;
  unmarshal : bytes -> option T;
}.

(** A value type is JSON-representable when decoding inverts encoding. *)
Definition representable {T : Type} (C : Codec T) : Prop :=
  forall (v : T) (b : bytes), marshal v = Some b -> unmarshal b = Some v.

Record handlerConfig : Type := {
  prefix : string;
  defaultTTL : Z;
  bgRefreshTimeout : Z;
  refreshCooldown : Z;
  defaultMissPolicy : MissPolicy;
  staleDataTTL : Z;
  defaultRefreshAheadThreshold : Q;
  defaultProbabilisticBeta : Q;
  cooperativeTimeout : Z;
}.

Record callOpts : Type := {
  ttl : Z;
  disableHitRefresh : bool;
  overrideMissPolicy : option MissPolicy;
  refreshAheadThreshold : Q;
  probabilisticRefreshBeta : Q;
  staleCheckTimeout : Z;
}.

(** [var co callOpts] *)
Definition zeroCallOpts : callOpts :=
  {| ttl := 0; disableHitRefresh := false; overrideMissPolicy := None;
     refreshAheadThreshold := 0; probabilisticRefreshBeta := 0;
     staleCheckTimeout := 0 |}.

Definition CallOption : Type := callOpts -> callOpts.
Definition Option_ : Type := handlerConfig -> handlerConfig.

(** ** cache.go: handler and call options *)

Definition set_prefix (p : string) (c : handlerConfig) : handlerConfig :=
  {| prefix := p; defaultTTL := defaultTTL c;
     bgRefreshTimeout := bgRefreshTimeout c;
     refreshCooldown := refreshCooldown c;
     defaultMissPolicy := defaultMissPolicy c;
     staleDataTTL := staleDataTTL c;
     defaultRefreshAheadThreshold := defaultRefreshAheadThreshold c;
     defaultProbabilisticBeta := defaultProbabilisticBeta c;
     cooperativeTimeout := cooperativeTimeout c |}.

Definition set_defaultTTL (d : Z) (c : handlerConfig) : handlerConfig :=
  {| prefix := prefix c; defaultTTL := d;
     bgRefreshTimeout := bgRefreshTimeout c;
     refreshCooldown := refreshCooldown c;
     defaultMissPolicy := defaultMissPolicy c;
     staleDataTTL := staleDataTTL c;
     defaultRefreshAheadThreshold := defaultRefreshAheadThreshold c;
     defaultProbabilisticBeta := defaultProbabilisticBeta c;
     cooperativeTimeout := cooperativeTimeout c |}.

Definition set_bgRefreshTimeout (d : Z) (c : handlerConfig) : handlerConfig :=
  {| prefix := prefix c; defaultTTL := defaultTTL c;
     bgRefreshTimeout := d;
     refreshCooldown := refreshCooldown c;
     defaultMissPolicy := defaultMissPolicy c;
     staleDataTTL := staleDataTTL c;
     defaultRefreshAheadThreshold := defaultRefreshAheadThreshold c;
     defaultProbabilisticBeta := defaultProbabilisticBeta c;
     cooperativeTimeout := cooperativeTimeout c |}.

Definition set_refreshCooldown (d : Z) (c : handlerConfig) : handlerConfig :=
  {| prefix := prefix c; defaultTTL := defaultTTL c;
     bgRefreshTimeout := bgRefreshTimeout c;
     refreshCooldown := d;
     defaultMissPolicy := defaultMissPolicy c;
     staleDataTTL := staleDataTTL c;
     defaultRefreshAheadThreshold := defaultRefreshAheadThreshold c;
     defaultProbabilisticBeta := defaultProbabilisticBeta c;
     cooperativeTimeout := cooperativeTimeout c |}.

Definition set_defaultMissPolicy (p : MissPolicy) (c : handlerConfig)
  : handlerConfig :=
  {| prefix := prefix c; defaultTTL := defaultTTL c;
     bgRefreshTimeout := bgRefreshTimeout c;
     refreshCooldown := refreshCooldown c;
     defaultMissPolicy := p;
     staleDataTTL := staleDataTTL c;
     defaultRefreshAheadThreshold := defaultRefreshAheadThreshold c;
     defaultProbabilisticBeta := defaultProbabilisticBeta c;
     cooperativeTimeout := cooperativeTimeout c |}.

Definition set_staleDataTTL (d : Z) (c : handlerConfig) : handlerConfig :=
  {| prefix := prefix c; defaultTTL := defaultTTL c;
     bgRefreshTimeout := bgRefreshTimeout c;
     refreshCooldown := refreshCooldown c;
     defaultMissPolicy := defaultMissPolicy c;
     staleDataTTL := d;
     defaultRefreshAheadThreshold := defaultRefreshAheadThreshold c;
     defaultProbabilisticBeta := defaultProbabilisticBeta c;
     cooperativeTimeout := cooperativeTimeout c |}.

Definition set_defaultRefreshAheadThreshold (q : Q) (c : handlerConfig)
  : handlerConfig :=
  {| prefix := prefix c; defaultTTL := defaultTTL c;
     bgRefreshTimeout := bgRefreshTimeout c;
     refreshCooldown := refreshCooldown c;
     defaultMissPolicy := defaultMissPolicy c;
     staleDataTTL := staleDataTTL c;
     defaultRefreshAheadThreshold := q;
     defaultProbabilisticBeta := defaultProbabilisticBeta c;
     cooperativeTimeout := cooperativeTimeout c |}.

Definition set_defaultProbabilisticBeta (q : Q) (c : handlerConfig)
  : handlerConfig :=
  {| prefix := prefix c; defaultTTL := defaultTTL c;
     bgRefreshTimeout := bgRefreshTimeout c;
     refreshCooldown := refreshCooldown c;
     defaultMissPolicy := defaultMissPolicy c;
     staleDataTTL := staleDataTTL c;
     defaultRefreshAheadThreshold := defaultRefreshAheadThreshold c;
     defaultProbabilisticBeta := q;
     cooperativeTimeout := cooperativeTimeout c |}.

Definition set_cooperativeTimeout (d : Z) (c : handlerConfig) : handlerConfig :=
  {| prefix := prefix c; defaultTTL := defaultTTL c;
     bgRefreshTimeout := bgRefreshTimeout c;
     refreshCooldown := refreshCooldown c;
     defaultMissPolicy := defaultMissPolicy c;
     staleDataTTL := staleDataTTL c;
     defaultRefreshAheadThreshold := defaultRefreshAheadThreshold c;
     defaultProbabilisticBeta := defaultProbabilisticBeta c;
     cooperativeTimeout := d |}.

Definition WithPrefix (p : string) : Option_ := set_prefix p.
Definition WithDefaultTTL (d : Z) : Option_ := set_defaultTTL d.
Definition WithBackgroundRefreshTimeout (d : Z) : Option_ :=
  set_bgRefreshTimeout d.
Definition WithRefreshCooldown (d : Z) : Option_ := set_refreshCooldown d.
Definition WithMissPolicy (p : MissPolicy) : Option_ := set_defaultMissPolicy p.
Definition WithStaleDataTTL (d : Z) : Option_ := set_staleDataTTL d.

(** Handler-level [WithRefreshAheadThreshold]: kept only inside [0, 1]. *)
Definition WithDefaultRefreshAheadThreshold (threshold : Q) : Option_ :=
  fun c =>
    if Qle_bool 0 threshold && Qle_bool threshold 1
    then set_defaultRefreshAheadThreshold threshold c
    else c.

(** Handler-level [WithProbabilisticBeta]: kept only when positive. *)
Definition WithDefaultProbabilisticBeta (beta : Q) : Option_ :=
  fun c =>
    if Qltb 0 beta then set_defaultProbabilisticBeta beta c else c.

Definition WithCooperativeTimeout (d : Z) : Option_ := set_cooperativeTimeout d.

(** The configuration [New] starts from, before the options are applied. *)
Definition newConfig : handlerConfig :=
  {| prefix := "";
     defaultTTL := 5 * 60 * Time.Second;
     bgRefreshTimeout := 5 * Time.Second;
     refreshCooldown := 0;
     defaultMissPolicy := MissPolicySyncWriteThenReturn;
     staleDataTTL := 24 * 3600 * Time.Second;
     defaultRefreshAheadThreshold := 2 # 10;
     defaultProbabilisticBeta := 1;
     cooperativeTimeout := 10 * Time.Second |}.

(** [for _, o := range opts { o(&config) }] *)
Definition New (opts : list Option_) : handlerConfig :=
  fold_left (fun c o => o c) opts newConfig.

Definition WithTTL (d : Z) : CallOption :=
  fun c =>
    {| ttl := d; disableHitRefresh := disableHitRefresh c;
       overrideMissPolicy := overrideMissPolicy c;
       refreshAheadThreshold := refreshAheadThreshold c;
       probabilisticRefreshBeta := probabilisticRefreshBeta c;
       staleCheckTimeout := staleCheckTimeout c |}.

Definition WithoutBackgroundRefresh : CallOption :=
  fun c =>
    {| ttl := ttl c; disableHitRefresh := true;
       overrideMissPolicy := overrideMissPolicy c;
       refreshAheadThreshold := refreshAheadThreshold c;
       probabilisticRefreshBeta := probabilisticRefreshBeta c;
       staleCheckTimeout := staleCheckTimeout c |}.

Definition WithCallMissPolicy (p : MissPolicy) : CallOption :=
  fun c =>
    {| ttl := ttl c; disableHitRefresh := disableHitRefresh c;
       overrideMissPolicy := Some p;
       refreshAheadThreshold := refreshAheadThreshold c;
       probabilisticRefreshBeta := probabilisticRefreshBeta c;
       staleCheckTimeout := staleCheckTimeout c |}.

(** Call-level [WithRefreshAheadThreshold]. *)
Definition WithRefreshAheadThreshold (threshold : Q) : CallOption :=
  fun c =>
    if Qle_bool 0 threshold && Qle_bool threshold 1 then
      {| ttl := ttl c; disableHitRefresh := disableHitRefresh c;
         overrideMissPolicy := overrideMissPolicy c;
         refreshAheadThreshold := threshold;
         probabilisticRefreshBeta := probabilisticRefreshBeta c;
         staleCheckTimeout := staleCheckTimeout c |}
    else c.

(** Call-level [WithProbabilisticBeta]. *)
Definition WithProbabilisticBeta (beta : Q) : CallOption :=
  fun c =>
    if Qltb 0 beta then
      {| ttl := ttl c; disableHitRefresh := disableHitRefresh c;
         overrideMissPolicy := overrideMissPolicy c;
         refreshAheadThreshold := refreshAheadThreshold c;
         probabilisticRefreshBeta := beta;
         staleCheckTimeout := staleCheckTimeout c |}
    else c.

Definition WithStaleCheckTimeout (d : Z) : CallOption :=
  fun c =>
    {| ttl := ttl c; disableHitRefresh := disableHitRefresh c;
       overrideMissPolicy := overrideMissPolicy c;
       refreshAheadThreshold := refreshAheadThreshold c;
       probabilisticRefreshBeta := probabilisticRefreshBeta c;
       staleCheckTimeout := d |}.

(** [var co callOpts; for _, o := range opts { o(&co) }] *)
Definition applyOpts (opts : list CallOption) : callOpts :=
  fold_left (fun c o => o c) opts zeroCallOpts.

(** ** lock.go: the keyed mutex

    [locks] maps a key to its channel, a buffer of capacity one; the
    channel is represented by the number of tokens it holds. *)

Module keyedMutex.

Definition newKeyedMutex : gmap string nat := ∅.

Definition capacity : nat := 1.

(** [km.ch(key)]: the channel of [key], made on first use. *)
Definition ch (key : string) (locks : gmap string nat) : gmap string nat :=
  match locks !! key with
  | Some _ => locks
  | None => <[key := 0%nat]> locks
  end.

Definition tokens (key : string) (locks : gmap string nat) : nat :=
  default 0%nat (locks !! key).

(** [ch <- struct{}{}]: proceeds only while the buffer has room. *)
Definition send (key : string) (locks : gmap string nat)
  : option (gmap string nat) :=
  if (tokens key locks <? capacity)%nat
  then Some (<[key := S (tokens key locks)]> locks)
  else None.

(** [<-ch]: proceeds only when the buffer holds a token. *)
Definition recv (key : string) (locks : gmap string nat)
  : option (gmap string nat) :=
  match tokens key locks with
  | S n => Some (<[key := n]> locks)
  | O => None
  end.

(** What a goroutine is doing with the mutex. *)
Inductive pc : Type :=
| Idle
| AtLock (key : string)       (* [Lock]: has the channel, about to send *)
| AtTryLock (key : string)    (* [TryLock]: has the channel, at the select *)
| Critical (key : string).    (* sent its token, releaser not yet run *)

Global Instance pc_eq_dec : EqDecision pc.
Proof. solve_decision. Defined.

Record sys : Type := { locks : gmap string nat; procs : list pc }.

Definition init : sys := {| locks := newKeyedMutex; procs := [] |}.

(** One atomic step of one goroutine, or the start of a new one. *)
Inductive step (s : sys) : sys -> Prop :=
| step_go :
    step s {| locks := locks s; procs := procs s ++ [Idle] |}
| step_Lock_ch i key :
    procs s !! i = Some Idle ->
    step s {| locks := ch key (locks s);
              procs := <[i := AtLock key]> (procs s) |}
| step_Lock_send i key l' :
    procs s !! i = Some (AtLock key) ->
    send key (locks s) = Some l' ->
    step s {| locks := l'; procs := <[i := Critical key]> (procs s) |}
| step_TryLock_ch i key :
    procs s !! i = Some Idle ->
    step s {| locks := ch key (locks s);
              procs := <[i := AtTryLock key]> (procs s) |}
| step_TryLock_send i key l' :
    procs s !! i = Some (AtTryLock key) ->
    send key (locks s) = Some l' ->
    step s {| locks := l'; procs := <[i := Critical key]> (procs s) |}
| step_TryLock_default i key :
    procs s !! i = Some (AtTryLock key) ->
    send key (locks s) = None ->
    step s {| locks := locks s; procs := <[i := Idle]> (procs s) |}
| step_release i key l' :
    procs s !! i = Some (Critical key) ->
    recv key (locks s) = Some l' ->
    step s {| locks := l'; procs := <[i := Idle]> (procs s) |}.

Inductive reachable : sys -> Prop :=
| reach_init : reachable init
| reach_step s s' : reachable s -> step s s' -> reachable s'.

(** Number of goroutines inside the critical section of [key]. *)
Definition holders (key : string) (ps : list pc) : nat :=
  length (filter (fun p => p = Critical key) ps).

(** The contribution of one goroutine to [holders]. *)
Definition weight (key : string) (p : pc) : nat :=
  if decide (p = Critical key) then 1%nat else 0%nat.

(** The tokens in a key's channel are exactly the goroutines inside its
    critical section, and there is at most one of them. *)
Definition balanced (s : sys) : Prop :=
  forall key,
    holders key (procs s) = tokens key (locks s) /\
    (tokens key (locks s) <= 1)%nat.

End keyedMutex.


(** ** The backend and the effects of a run *)

(** A stored value with its expiry instant ([None]: no expiry). *)
Record Entry : Type := { payload : bytes; expiry : option Z }.

Definition live (now : Z) (e : Entry) : bool :=
  match expiry e with
  | None => true
  | Some t => now <? t
  end.

(** What a run did, in order: backend commands, lock operations,
    generator invocations and calls of [setLastRefreshNow]. *)
Inductive Event : Type :=
| EvRdbGet (k : string)
| EvRdbSet (k : string) (b : bytes) (ttl : Z) (ok : bool)
| EvRdbExists (k : string)
| EvRdbTTL (k : string)
| EvMarshal (ok : bool)
| EvGen (n : nat)
| EvSetLastRefresh (k : string)
| EvLock (k : string)
| EvTryLock (k : string) (ok : bool)
| EvUnlock (k : string).

(** The case a [select] commits to in [missCooperativeRefresh]. *)
Inductive SelectCase : Type :=
| CaseTimeout    (* [<-lockCtx.Done()] *)
| CaseDone.      (* [<-done] *)

(** Every successful backend write is directly followed by the call of
    [setLastRefreshNow] for the same key. *)
Fixpoint ledgered (tr : list Event) : bool :=
  match tr with
  | [] => true
  | EvRdbSet k _ _ true :: rest =>
      match rest with
      | EvSetLastRefresh k' :: _ => bool_decide (k = k') && ledgered rest
      | _ => false
      end
  | _ :: rest => ledgered rest
  end.

(** The same, with the writes to key [x] left out of the requirement. *)
Fixpoint ledgered_except (x : string) (tr : list Event) : bool :=
  match tr with
  | [] => true
  | EvRdbSet k _ _ true :: rest =>
      (bool_decide (k = x)
       || match rest with
          | EvSetLastRefresh k' :: _ => bool_decide (k = k')
          | _ => false
          end)
      && ledgered_except x rest
  | _ :: rest => ledgered_except x rest
  end.

(** Every backend write, successful or not, directly follows a successful
    encoding and carries the encoded bytes. *)
Fixpoint encoded (tr : list Event) : bool :=
  match tr with
  | [] => true
  | EvMarshal true :: rest =>
      match rest with
      | EvRdbSet _ _ _ _ :: rest' => encoded rest'
      | _ => encoded rest
      end
  | EvRdbSet _ _ _ _ :: _ => false
  | _ :: rest => encoded rest
  end.

Definition is_write (e : Event) : bool :=
  match e with
  | EvRdbSet _ _ _ _ => true
  | _ => false
  end.

Definition is_gen (e : Event) : bool :=
  match e with
  | EvGen _ => true
  | _ => false
  end.

Definition writes (tr : list Event) : list Event := List.filter is_write tr.
Definition gens (tr : list Event) : list Event := List.filter is_gen tr.

(** ** The handler *)

Section Handler.

Context {T : Type} {C : Codec T}.

(** [Result[T]]; the zero [time.Time] is [None]. *)
Record Result : Type := {
  Value : T;
  FromCache : bool;
  CachedAt : option Z;
}.

(** [Generator[T]]: a closure; what it returns may depend on how many
    generator invocations the process has made before. *)
Definition Generator : Type := nat -> T + error.

(** A goroutine started with [go], not yet run. *)
Inductive Task : Type :=
| GoBackgroundMissWrite (key : string) (ttl : Z) (v : T)
| GoBackgroundRefresh (key : string) (ttl : Z) (gen : Generator)
| GoStaleRefresh (key : string) (ttl : Z) (gen : Generator)
| GoScheduleRefreshAhead (key : string) (ttl : Z) (gen : Generator)
    (threshold : Q)
| GoEnableProbabilisticRefresh (key : string) (ttl : Z) (gen : Generator)
    (beta : Q)
| GoLockProbe (fullKey : string).

Record World : Type := {
  store : gmap string Entry;        (* the backend's keyspace *)
  faults : list bool;               (* per backend command: transport fails *)
  lastRefreshByKey : gmap string Z; (* the refresh ledger *)
  localLocks : gmap string nat;     (* the keyed mutex *)
  now : Z;                          (* the clock *)
  genCalls : nat;                   (* generator invocations so far *)
  rng : list Q;                     (* upcoming [rand.Float64()] draws *)
  selects : list SelectCase;        (* upcoming [select] resolutions *)
  spawned : list Task;              (* goroutines started, not yet run *)
}.

Definition set_store (s : gmap string Entry) (w : World) : World :=
  {| store := s; faults := faults w;
     lastRefreshByKey := lastRefreshByKey w; localLocks := localLocks w;
     now := now w; genCalls := genCalls w; rng := rng w;
     selects := selects w; spawned := spawned w |}.

Definition set_faults (f : list bool) (w : World) : World :=
  {| store := store w; faults := f;
     lastRefreshByKey := lastRefreshByKey w; localLocks := localLocks w;
     now := now w; genCalls := genCalls w; rng := rng w;
     selects := selects w; spawned := spawned w |}.

Definition set_lastRefreshByKey (l : gmap string Z) (w : World) : World :=
  {| store := store w; faults := faults w;
     lastRefreshByKey := l; localLocks := localLocks w;
     now := now w; genCalls := genCalls w; rng := rng w;
     selects := selects w; spawned := spawned w |}.

Definition set_localLocks (l : gmap string nat) (w : World) : World :=
  {| store := store w; faults := faults w;
     lastRefreshByKey := lastRefreshByKey w; localLocks := l;
     now := now w; genCalls := genCalls w; rng := rng w;
     selects := selects w; spawned := spawned w |}.

Definition set_now (t : Z) (w : World) : World :=
  {| store := store w; faults := faults w;
     lastRefreshByKey := lastRefreshByKey w; localLocks := localLocks w;
     now := t; genCalls := genCalls w; rng := rng w;
     selects := selects w; spawned := spawned w |}.

Definition set_genCalls (n : nat) (w : World) : World :=
  {| store := store w; faults := faults w;
     lastRefreshByKey := lastRefreshByKey w; localLocks := localLocks w;
     now := now w; genCalls := n; rng := rng w;
     selects := selects w; spawned := spawned w |}.

Definition set_rng (r : list Q) (w : World) : World :=
  {| store := store w; faults := faults w;
     lastRefreshByKey := lastRefreshByKey w; localLocks := localLocks w;
     now := now w; genCalls := genCalls w; rng := r;
     selects := selects w; spawned := spawned w |}.

Definition set_selects (s : list SelectCase) (w : World) : World :=
  {| store := store w; faults := faults w;
     lastRefreshByKey := lastRefreshByKey w; localLocks := localLocks w;
     now := now w; genCalls := genCalls w; rng := rng w;
     selects := s; spawned := spawned w |}.

Definition set_spawned (s : list Task) (w : World) : World :=
  {| store := store w; faults := faults w;
     lastRefreshByKey := lastRefreshByKey w; localLocks := localLocks w;
     now := now w; genCalls := genCalls w; rng := rng w;
     selects := selects w; spawned := s |}.

(** *** Runs *)

(** A run returns, or parks forever on a channel operation. *)
Inductive Outcome (A : Type) : Type :=
| Ret (a : A) (w : World) (tr : list Event)
| Block (w : World) (tr : list Event).

Arguments Ret {A} a w tr.
Arguments Block {A} w tr.

Definition M (A : Type) : Type := World -> Outcome A.

Definition ret {A : Type} (a : A) : M A := fun w => Ret a w [].

Definition bind {A B : Type} (m : M A) (f : A -> M B) : M B :=
  fun w =>
    match m w with
    | Ret a w1 t1 =>
        match f a w1 with
        | Ret b w2 t2 => Ret b w2 (t1 ++ t2)
        | Block w2 t2 => Block w2 (t1 ++ t2)
        end
    | Block w1 t1 => Block w1 t1
    end.

Local Notation "'do' x <- m ; k" := (bind m (fun x => k))
  (at level 10, x pattern, m at level 100, k at level 200).
Local Notation "'run' m ; k" := (bind m (fun _ => k))
  (at level 10, m at level 100, k at level 200).

Definition world_of {A : Type} (o : Outcome A) : World :=
  match o with
  | Ret _ w _ => w
  | Block w _ => w
  end.

Definition trace_of {A : Type} (o : Outcome A) : list Event :=
  match o with
  | Ret _ _ tr => tr
  | Block _ tr => tr
  end.

Definition value_of {A : Type} (o : Outcome A) : option A :=
  match o with
  | Ret a _ _ => Some a
  | Block _ _ => None
  end.

(** *** Environment *)

(** [time.Now()] *)
Definition time_Now : M Z := fun w => Ret (now w) w [].

(** Time passing between two steps of the program. *)
Definition tick (d : Z) (w : World) : World := set_now (now w + d) w.

(** [time.Sleep(d)] *)
Definition time_Sleep (d : Z) : M unit :=
  fun w => Ret tt (if 0 <? d then tick d w else w) [].

(** [rand.Float64()] *)
Definition rand_Float64 : M Q :=
  fun w => Ret (hd 0%Q (rng w)) (set_rng (tl (rng w)) w) [].

(** Invoking the caller's generator. *)
Definition callGen (gen : Generator) : M (T + error) :=
  fun w =>
    Ret (gen (genCalls w)) (set_genCalls (S (genCalls w)) w)
        [EvGen (genCalls w)].

(** [go f(...)] *)
Definition go_ (t : Task) : M unit :=
  fun w => Ret tt (set_spawned (spawned w ++ [t]) w) [].

(** *** Backend commands

    Modelled from the spec: the Redis client ([redis.Client], an external
    collaborator) with the four primitives the handler uses.  Each command
    first consumes one transport flag; [Get] reports absence as
    [redis.Nil]; [Set] with a positive TTL makes the key expire at
    [now + ttl] and otherwise stores it without expiry; [TTL] of a key
    without expiry, or of a missing key, is negative. *)

(** Whether the [n]-th backend command from now fails in transport. *)
Definition fault_at (n : nat) (w : World) : bool := nth n (faults w) false.

Definition next_fault (w : World) : bool * World :=
  (fault_at 0 w, set_faults (tl (faults w)) w).

Definition lookup_live (k : string) (w : World) : option Entry :=
  match store w !! k with
  | Some e => if live (now w) e then Some e else None
  | None => None
  end.

Definition rdb_Get (k : string) : M (error + bytes) :=
  fun w =>
    let (f, w1) := next_fault w in
    if f then Ret (inl ErrTransport) w1 [EvRdbGet k]
    else match lookup_live k w1 with
         | Some e => Ret (inr (payload e)) w1 [EvRdbGet k]
         | None => Ret (inl ErrNil) w1 [EvRdbGet k]
         end.

Definition rdb_Set (k : string) (b : bytes) (ttl : Z) : M (option error) :=
  fun w =>
    let (f, w1) := next_fault w in
    if f then Ret (Some ErrTransport) w1 [EvRdbSet k b ttl false]
    else
      let e := {| payload := b;
                  expiry := if 0 <? ttl then Some (now w1 + ttl) else None |} in
      Ret None (set_store (<[k := e]> (store w1)) w1) [EvRdbSet k b ttl true].

Definition rdb_Exists (k : string) : M (error + Z) :=
  fun w =>
    let (f, w1) := next_fault w in
    if f then Ret (inl ErrTransport) w1 [EvRdbExists k]
    else match lookup_live k w1 with
         | Some _ => Ret (inr 1) w1 [EvRdbExists k]
         | None => Ret (inr 0) w1 [EvRdbExists k]
         end.

Definition rdb_TTL (k : string) : M (error + Z) :=
  fun w =>
    let (f, w1) := next_fault w in
    if f then Ret (inl ErrTransport) w1 [EvRdbTTL k]
    else match lookup_live k w1 with
         | Some e =>
             match expiry e with
             | Some t => Ret (inr (t - now w1)) w1 [EvRdbTTL k]
             | None => Ret (inr (-1)) w1 [EvRdbTTL k]
             end
         | None => Ret (inr (-2)) w1 [EvRdbTTL k]
         end.

(** *** lock.go, on the handler's [localLocks] *)

(** The releaser [func() { <-ch }]. *)
Definition releaser (key : string) : M unit :=
  fun w =>
    match keyedMutex.recv key (localLocks w) with
    | Some l => Ret tt (set_localLocks l w) [EvUnlock key]
    | None => Block w []
    end.

Definition Lock (key : string) : M (M unit) :=
  fun w =>
    let l := keyedMutex.ch key (localLocks w) in
    match keyedMutex.send key l with
    | Some l' => Ret (releaser key) (set_localLocks l' w) [EvLock key]
    | None => Block (set_localLocks l w) []
    end.

Definition TryLock (key : string) : M (M unit * bool) :=
  fun w =>
    let l := keyedMutex.ch key (localLocks w) in
    match keyedMutex.send key l with
    | Some l' =>
        Ret (releaser key, true) (set_localLocks l' w) [EvTryLock key true]
    | None =>
        Ret (ret tt, false) (set_localLocks l w) [EvTryLock key false]
    end.

Definition lock_free (key : string) (w : World) : bool :=
  (keyedMutex.tokens key (localLocks w) =? 0)%nat.

(** *** cache.go and helper.go, for a handler with configuration [cfg] *)

Variable cfg : handlerConfig.

Definition zeroResult : Result :=
  {| Value := zero; FromCache := false; CachedAt := None |}.

Definition fullKey (key : string) : string :=
  if String.eqb (prefix cfg) "" then key
  else (prefix cfg +:+ ":") +:+ key.

(** Defaults overridden by the call's options; the source computes them
    in line ([ttl := co.ttl; if ttl <= 0 { ttl = h.config.defaultTTL }] and
    the like) in [Set], [GetOrRefresh], the miss handlers and
    [handleHitRefresh]. *)

Definition effectiveTTL (co : callOpts) : Z :=
  if ttl co <=? 0 then defaultTTL cfg else ttl co.

Definition effectiveMissPolicy (co : callOpts) : MissPolicy :=
  match overrideMissPolicy co with
  | Some p => p
  | None => defaultMissPolicy cfg
  end.

Definition effectiveThreshold (co : callOpts) : Q :=
  if Qle_bool (refreshAheadThreshold co) 0
  then defaultRefreshAheadThreshold cfg
  else refreshAheadThreshold co.

Definition effectiveBeta (co : callOpts) : Q :=
  if Qle_bool (probabilisticRefreshBeta co) 0
  then defaultProbabilisticBeta cfg
  else probabilisticRefreshBeta co.

(** Cooldown tracking. *)

Definition shouldRefreshNow (fullKey : string) : M bool :=
  fun w =>
    if refreshCooldown cfg <=? 0 then Ret true w []
    else match lastRefreshByKey w !! fullKey with
         | None => Ret true w []
         | Some last =>
             Ret (refreshCooldown cfg <=? Time.Since (now w) last) w []
         end.

Definition setLastRefreshNow (fullKey : string) : M unit :=
  fun w =>
    if refreshCooldown cfg <=? 0 then Ret tt w [EvSetLastRefresh fullKey]
    else Ret tt
           (set_lastRefreshByKey (<[fullKey := now w]> (lastRefreshByKey w)) w)
           [EvSetLastRefresh fullKey].

(** [json.Marshal(value)] *)
Definition json_Marshal (value : T) : M (option bytes) :=
  fun w =>
    match marshal value with
    | Some b => Ret (Some b) w [EvMarshal true]
    | None => Ret None w [EvMarshal false]
    end.

(** [Set] writes a value with TTL. *)
Definition Set_ (key : string) (value : T) (opts : list CallOption)
  : M (option error) :=
  let co := applyOpts opts in
  let ttl := effectiveTTL co in
  let k := fullKey key in
  do b <- json_Marshal value;
  match b with
  | None => ret (Some (ErrWrap "marshal" ErrMarshal))
  | Some b =>
      do err <- rdb_Set k b ttl;
      match err with
      | Some e => ret (Some (ErrWrap "redis set" e))
      | None =>
          run setLastRefreshNow k;   (* for cooldown accounting *)
          ret None
      end
  end.

(** [Get] fetches a value from the backend into [T].  ([cmd.Bytes()]
    returns the reply of a command whose [Err()] is nil; it adds no
    failure of its own.) *)
Definition Get (key : string) : M (Result * option error) :=
  let k := fullKey key in
  do cmd <- rdb_Get k;
  match cmd with
  | inl err =>
      if is_redis_Nil err then ret (zeroResult, Some ErrNil)
      else ret (zeroResult, Some (ErrWrap "redis get" err))
  | inr raw =>
      match unmarshal raw with
      | None => ret (zeroResult, Some (ErrWrap "unmarshal" ErrUnmarshal))
      | Some v =>
          do t <- time_Now;
          ret ({| Value := v; FromCache := true; CachedAt := Some t |}, None)
      end
  end.

(** Miss helpers. *)

Definition missSyncWriteThenReturn (key : string) (ttl : Z) (gen : Generator)
  : M (Result * option error) :=
  let fullKey := fullKey key in
  (* acquire per-key lock *)
  do unlock <- Lock fullKey;
  do r <-
    (do g <- Get key;
     match snd g with
     | None => ret (fst g, None)                    (* double-check hit *)
     | Some err =>
         if negb (is_redis_Nil err) then ret (zeroResult, Some err)
         else
           (* still missing; generate and write *)
           do v <- callGen gen;
           match v with
           | inr err => ret (zeroResult, Some (ErrWrap "generator" err))
           | inl v =>
               do err <- Set_ key v [WithTTL ttl];
               match err with
               | Some err => ret (zeroResult, Some err)
               | None =>
                   do t <- time_Now;
                   ret ({| Value := v; FromCache := false;
                           CachedAt := Some t |}, None)
               end
           end
     end);
  run unlock;                                       (* defer unlock() *)
  ret r.

Definition missReturnThenAsyncWrite (key : string) (ttl : Z) (gen : Generator)
  : M (Result * option error) :=
  do v <- callGen gen;
  match v with
  | inr err => ret (zeroResult, Some (ErrWrap "generator" err))
  | inl v =>
      run go_ (GoBackgroundMissWrite key ttl v);
      do t <- time_Now;
      ret ({| Value := v; FromCache := false; CachedAt := Some t |}, None)
  end.

(** Persists a generated value in the background after a miss. *)
Definition spawnBackgroundMissWrite (key : string) (ttl : Z) (v : T) : M unit :=
  let fullKey := fullKey key in
  do l <- TryLock fullKey;
  if negb (snd l) then ret tt
  else
    do r <-
      (do exists_ <- rdb_Exists fullKey;
       match exists_ with
       | inl _ => ret tt
       | inr n =>
           if 0 <? n then ret tt
           else run Set_ key v [WithTTL ttl]; ret tt
       end);
    run fst l;                                      (* defer unlock() *)
    ret r.

(** Hit refresh helper. *)
Definition spawnBackgroundRefresh (key : string) (ttl : Z) (gen : Generator)
  : M unit :=
  let fullKey := fullKey key in
  do l <- TryLock fullKey;
  if negb (snd l) then ret tt
  else
    do r <-
      (do ok <- shouldRefreshNow fullKey;
       if negb ok then ret tt
       else
         do v <- callGen gen;
         match v with
         | inr _ => ret tt
         | inl v => run Set_ key v [WithTTL ttl]; ret tt
         end);
    run fst l;                                      (* defer unlock() *)
    ret r.

(** Gets data from a specific backend key (for stale data). *)
Definition getFromKey (fullKey : string) : M (T * option error) :=
  do cmd <- rdb_Get fullKey;
  match cmd with
  | inl err => ret (zero, Some err)
  | inr raw =>
      match unmarshal raw with
      | None => ret (zero, Some ErrUnmarshal)
      | Some v => ret (v, None)
      end
  end.

(** Sets data to a specific backend key. *)
Definition setToKey (fullKey : string) (value : T) (ttl : Z)
  : M (option error) :=
  do b <- json_Marshal value;
  match b with
  | None => ret (Some ErrMarshal)
  | Some b => rdb_Set fullKey b ttl
  end.

(** Refreshes data and updates both main and stale keys. *)
Definition spawnStaleRefresh (key : string) (ttl : Z) (gen : Generator)
  : M unit :=
  let fullKey_ := fullKey key in
  let staleKey := fullKey (key +:+ ":stale") in
  do l <- TryLock fullKey_;
  if negb (snd l) then ret tt
  else
    do r <-
      (do v <- callGen gen;
       match v with
       | inr _ => ret tt
       | inl v =>
           run Set_ key v [WithTTL ttl];                    (* main key *)
           run setToKey staleKey v (staleDataTTL cfg);      (* stale key *)
           ret tt
       end);
    run fst l;                                      (* defer unlock() *)
    ret r.

Definition missStaleWhileRevalidate (key : string) (ttl : Z) (gen : Generator)
  (co : callOpts) : M (Result * option error) :=
  let staleKey := fullKey (key +:+ ":stale") in
  (* the bound of the stale read; a read that exceeds it fails in transport *)
  let staleTimeout :=
    (if staleCheckTimeout co <=? 0 then 1 * Time.Second
     else staleCheckTimeout co) in
  do s <- getFromKey staleKey;
  match snd s with
  | None =>
      (* found stale data, return it and refresh in background *)
      run go_ (GoStaleRefresh key ttl gen);
      do t <- time_Now;
      ret ({| Value := fst s; FromCache := true; CachedAt := Some t |}, None)
  | Some _ =>
      (* no stale data, fall back to sync generation *)
      missSyncWriteThenReturn key ttl gen
  end.

Definition missFailFast (key : string) : M (Result * option error) :=
  ret ({| Value := zero; FromCache := false; CachedAt := None |},
       Some ErrCacheMissFailFast).

Definition missRefreshAhead (key : string) (ttl : Z) (gen : Generator)
  (co : callOpts) : M (Result * option error) :=
  do r <- missSyncWriteThenReturn key ttl gen;
  match snd r with
  | Some err => ret r
  | None =>
      let threshold := effectiveThreshold co in
      run go_ (GoScheduleRefreshAhead key ttl gen threshold);
      ret (fst r, None)
  end.

(** The case the scheduler lets the [select] commit to; [<-done] when the
    environment says nothing. *)
Definition next_select : M SelectCase :=
  fun w => Ret (hd CaseDone (selects w)) (set_selects (tl (selects w)) w) [].


(** The helper goroutine of [missCooperativeRefresh]:
    [unlock := Lock(fullKey); defer unlock(); close(done)]. *)
Definition lockProbe (fullKey : string) : M unit :=
  do unlock <- Lock fullKey;
  unlock.

Definition missCooperativeRefresh (key : string) (ttl : Z) (gen : Generator)
  : M (Result * option error) :=
  let fullKey := fullKey key in
  do c <- next_select;
  match c with
  | CaseTimeout =>
      (* the helper goroutine is left behind, on its way into [Lock] *)
      run go_ (GoLockProbe fullKey);
      do v <- callGen gen;
      match v with
      | inr err => ret (zeroResult, Some (ErrWrap "generator" err))
      | inl v =>
          do t <- time_Now;
          ret ({| Value := v; FromCache := false; CachedAt := Some t |}, None)
      end
  | CaseDone =>
      (* the helper goroutine has run *)
      run lockProbe fullKey;
      missSyncWriteThenReturn key ttl gen
  end.

Definition missBestEffort (key : string) (ttl : Z) (gen : Generator)
  : M (Result * option error) :=
  do v <- callGen gen;
  match v with
  | inr _ =>
      (* zero value instead of error *)
      do t <- time_Now;
      ret ({| Value := zero; FromCache := false; CachedAt := Some t |}, None)
  | inl v =>
      do setErr <- Set_ key v [WithTTL ttl];
      match setErr with
      | Some _ =>
          do t <- time_Now;
          ret ({| Value := v; FromCache := false; CachedAt := Some t |}, None)
      | None =>
          do t <- time_Now;
          ret ({| Value := v; FromCache := false; CachedAt := Some t |}, None)
      end
  end.

Definition missProbabilisticRefresh (key : string) (ttl : Z) (gen : Generator)
  (co : callOpts) : M (Result * option error) :=
  do r <- missSyncWriteThenReturn key ttl gen;
  match snd r with
  | Some err => ret r
  | None =>
      let beta := effectiveBeta co in
      run go_ (GoEnableProbabilisticRefresh key ttl gen beta);
      ret (fst r, None)
  end.

(** [time.Duration(x)] of a finite float: truncation towards zero. *)
Definition truncate (q : Q) : Z := Z.quot (Qnum q) (Z.pos (Qden q)).

(** Stores the metadata for the probabilistic calculation. *)
Definition enableProbabilisticRefresh (key : string) (ttl : Z)
  (gen : Generator) (beta : Q) : M unit :=
  let fullKey := fullKey key in
  fun w =>
    Ret tt
      (set_lastRefreshByKey
         (<[fullKey +:+ "@created" := now w]> (lastRefreshByKey w)) w)
      [].

(** Calculates if probabilistic refresh should occur. *)
Definition shouldProbabilisticRefresh (key : string) (ttl : Z) (beta : Q)
  : M bool :=
  let fullKey := fullKey key in
  fun w =>
    match lastRefreshByKey w !! (fullKey +:+ "@created") with
    | None => Ret false w []
    | Some created =>
        let age := Time.Since (now w) created in
        let ageRatio := Float.div (Float.ofInt age) (Float.ofInt ttl) in
        (* random() < (age / ttl) * beta *)
        let probability := Float.mul ageRatio (Fin beta) in
        (do r <- rand_Float64; ret (Float.lt (Fin r) probability)) w
    end.

(** Checks if refresh-ahead should trigger based on the remaining TTL. *)
Definition shouldRefreshAhead (fullKey : string) (originalTTL : Z)
  (threshold : Q) : M bool :=
  do r <- rdb_TTL fullKey;
  match r with
  | inl _ => ret false
  | inr remaining =>
      if remaining <=? 0 then ret false
      else
        let remainingRatio :=
          Float.div (Float.ofInt remaining) (Float.ofInt originalTTL) in
        ret (Float.le remainingRatio (Fin threshold))
  end.

(** Manages the refresh strategies on cache hits. *)
Definition handleHitRefresh (key : string) (ttl : Z) (gen : Generator)
  (missPolicy : MissPolicy) (co : callOpts) : M unit :=
  let fullKey := fullKey key in
  match missPolicy with
  | MissPolicyRefreshAhead =>
      let threshold := effectiveThreshold co in
      do b <- shouldRefreshAhead fullKey ttl threshold;
      if b then go_ (GoBackgroundRefresh key ttl gen) else ret tt
  | MissPolicyProbabilisticRefresh =>
      let beta := effectiveBeta co in
      do b <- shouldProbabilisticRefresh key ttl beta;
      if b then go_ (GoBackgroundRefresh key ttl gen) else ret tt
  | _ =>
      (* standard background refresh *)
      do b <- shouldRefreshNow fullKey;
      if b then go_ (GoBackgroundRefresh key ttl gen) else ret tt
  end.

(** Sets up the proactive refresh: sleeps, then refreshes a key that still
    exists. *)
Definition scheduleRefreshAhead (key : string) (ttl : Z) (gen : Generator)
  (threshold : Q) : M unit :=
  let refreshTime := truncate (inject_Z ttl * (1 - threshold))%Q in
  run time_Sleep refreshTime;
  let fullKey := fullKey key in
  do exists_ <- rdb_Exists fullKey;
  match exists_ with
  | inl _ => ret tt
  | inr n =>
      if n =? 0 then ret tt
      else spawnBackgroundRefresh key ttl gen
  end.

(** The main entry. *)
Definition GetOrRefresh (key : string) (gen : Generator)
  (opts : list CallOption) : M (Result * option error) :=
  let co := applyOpts opts in
  let ttl := effectiveTTL co in
  let missPolicy := effectiveMissPolicy co in
  (* 1) try cache *)
  do g <- Get key;
  match snd g with
  | None =>
      run (if negb (disableHitRefresh co)
           then handleHitRefresh key ttl gen missPolicy co
           else ret tt);
      ret (fst g, None)
  | Some err =>
      if negb (is_redis_Nil err) then ret (zeroResult, Some err)
      else
        (* 2) miss: choose behavior *)
        match missPolicy with
        | MissPolicySyncWriteThenReturn =>
            missSyncWriteThenReturn key ttl gen
        | MissPolicyReturnThenAsyncWrite =>
            missReturnThenAsyncWrite key ttl gen
        | MissPolicyStaleWhileRevalidate =>
            missStaleWhileRevalidate key ttl gen co
        | MissPolicyFailFast =>
            missFailFast key
        | MissPolicyRefreshAhead =>
            missRefreshAhead key ttl gen co
        | MissPolicyCooperativeRefresh =>
            missCooperativeRefresh key ttl gen
        | MissPolicyBestEffort =>
            missBestEffort key ttl gen
        | MissPolicyProbabilisticRefresh =>
            missProbabilisticRefresh key ttl gen co
        | MissPolicyUnknown _ =>
            ret (zeroResult, Some (ErrUnknownPolicy missPolicy))
        end
  end.

(** The body of a started goroutine. *)
Definition run_task (t : Task) : M unit :=
  match t with
  | GoBackgroundMissWrite key ttl v => spawnBackgroundMissWrite key ttl v
  | GoBackgroundRefresh key ttl gen => spawnBackgroundRefresh key ttl gen
  | GoStaleRefresh key ttl gen => spawnStaleRefresh key ttl gen
  | GoScheduleRefreshAhead key ttl gen threshold =>
      scheduleRefreshAhead key ttl gen threshold
  | GoEnableProbabilisticRefresh key ttl gen beta =>
      enableProbabilisticRefresh key ttl gen beta
  | GoLockProbe fullKey => lockProbe fullKey
  end.

(** The scheduler runs the goroutine that was started first. *)
Definition run_spawned : M unit :=
  fun w =>
    match spawned w with
    | [] => Ret tt w []
    | t :: ts => run_task t (set_spawned ts w)
    end.

End Handler.

Arguments Result T : clear implicits.
Arguments World T : clear implicits.
Arguments Task T : clear implicits.
Arguments Generator T : clear implicits.
Arguments Outcome T A : clear implicits.
Arguments M T A : clear implicits.
Arguments Ret {T A} a w tr.
Arguments Block {T A} w tr.

(** ** Concrete value types and handlers *)

(** [bool] under [encoding/json]. *)
Definition bool_marshal (b : bool) : option bytes :=
  Some (String.list_byte_of_string (if b then "true" else "false")).

Definition bool_unmarshal (raw : bytes) : option bool :=
  let s := String.string_of_list_byte raw in
  if String.eqb s "true" then Some true
  else if String.eqb s "false" then Some false
  else if String.eqb s "null" then Some false
  else None.

Global Instance boolCodec : Codec bool :=
  {| zero := false; marshal := bool_marshal; unmarshal := bool_unmarshal |}.

(** A world with an empty backend, ledger and lock table, at clock [t]. *)
Definition emptyWorld (T : Type) (t : Z) : World T :=
  {| store := ∅; faults := []; lastRefreshByKey := ∅; localLocks := ∅;
     now := t; genCalls := 0; rng := []; selects := []; spawned := [] |}.

(** A generator that always returns [v]; one that always fails. *)
Definition constGen {T : Type} (v : T) : Generator T := fun _ => inl v.
Definition failGen {T : Type} (code : Z) : Generator T :=
  fun _ => inr (ErrUser code).

(** A handler with prefix ["t"] and a cooldown of thirty seconds. *)
Definition cfgT : handlerConfig :=
  New [WithPrefix "t"; WithRefreshCooldown (30 * Time.Second)].





(** A key written with a TTL of ten seconds, one second ago. *)
Definition worldAfterSet (cfg : handlerConfig) : World bool :=
  tick Time.Second
    (world_of (Set_ cfg "e" true [WithTTL (10 * Time.Second)]
                 (emptyWorld bool 0))).



(** A system in which one goroutine is inside the critical section of
    ["a"] and another waits to enter it. *)
Definition sysContended : keyedMutex.sys :=
  {| keyedMutex.locks := {[ "a" := 1%nat ]};
     keyedMutex.procs := [keyedMutex.Critical "a"; keyedMutex.AtLock "a"] |}.

(** The stale refresh of key ["d"], run from an empty world. *)
Definition runStale : Outcome bool unit :=
  run_task cfgT (GoStaleRefresh "d" (60 * Time.Second) (constGen true))
    (emptyWorld bool 100).




(** The JSON text [true]. *)
Definition bytes_true : bytes := String.list_byte_of_string "true".

(** Events other than encodings, backend writes and ledger calls. *)
Definition quiet (e : Event) : bool :=
  match e with
  | EvRdbSet _ _ _ _ | EvMarshal _ | EvSetLastRefresh _ => false
  | _ => true
  end.

(** Every run of [m], from every world, leaves a trace accepted by [P]. *)
Definition always {T A : Type} (P : list Event -> bool)
  (m : M T A) : Prop :=
  forall w, P (trace_of (m w)) = true.

(** The handler options and the call options that cache.go exports. *)
Inductive exported_Option : Option_ -> Prop :=
| ex_WithPrefix p : exported_Option (WithPrefix p)
| ex_WithDefaultTTL d : exported_Option (WithDefaultTTL d)
| ex_WithBackgroundRefreshTimeout d :
    exported_Option (WithBackgroundRefreshTimeout d)
| ex_WithRefreshCooldown d : exported_Option (WithRefreshCooldown d)
| ex_WithMissPolicy p : exported_Option (WithMissPolicy p)
| ex_WithStaleDataTTL d : exported_Option (WithStaleDataTTL d)
| ex_WithDefaultRefreshAheadThreshold q :
    exported_Option (WithDefaultRefreshAheadThreshold q)
| ex_WithDefaultProbabilisticBeta q :
    exported_Option (WithDefaultProbabilisticBeta q)
| ex_WithCooperativeTimeout d : exported_Option (WithCooperativeTimeout d).

Inductive exported_CallOption : CallOption -> Prop :=
| ex_WithTTL d : exported_CallOption (WithTTL d)
| ex_WithoutBackgroundRefresh : exported_CallOption WithoutBackgroundRefresh
| ex_WithCallMissPolicy p : exported_CallOption (WithCallMissPolicy p)
| ex_WithRefreshAheadThreshold q :
    exported_CallOption (WithRefreshAheadThreshold q)
| ex_WithProbabilisticBeta q : exported_CallOption (WithProbabilisticBeta q)
| ex_WithStaleCheckTimeout d : exported_CallOption (WithStaleCheckTimeout d).

(** ** Properties *)

(** *** The keyed mutex *)

Section KeyedMutexFacts.

Import keyedMutex.

Lemma tokens_ch (key k : string) (l : gmap string nat) :
  tokens k (ch key l) = tokens k l.
Proof.
  unfold ch, tokens. destruct (l !! key) eqn:E; [done |].
  destruct (decide (key = k)) as [-> | Hne].
  - by rewrite lookup_insert_eq, E.
  - by rewrite lookup_insert_ne.
Qed.

Lemma tokens_insert_eq (key : string) (n : nat) (l : gmap string nat) :
  tokens key (<[key := n]> l) = n.
Proof. unfold tokens. by rewrite lookup_insert_eq. Qed.

Lemma send_Some (key : string) (l l' : gmap string nat) :
  send key l = Some l' ->
  tokens key l = 0%nat /\ tokens key l' = 1%nat /\
  forall k, k <> key -> tokens k l' = tokens k l.
Proof.
  unfold send, capacity. intros H.
  destruct (tokens key l <? 1)%nat eqn:E; [| discriminate].
  apply Nat.ltb_lt in E. injection H as <-.
  assert (tokens key l = 0%nat) as Hz by lia.
  split; [done |]. split.
  - unfold tokens at 1. rewrite lookup_insert_eq. simpl. by rewrite Hz.
  - intros k Hk. unfold tokens. by rewrite lookup_insert_ne.
Qed.

Lemma send_None (key : string) (l : gmap string nat) :
  send key l = None -> (1 <= tokens key l)%nat.
Proof.
  unfold send, capacity. intros H.
  destruct (tokens key l <? 1)%nat eqn:E; [discriminate |].
  apply Nat.ltb_ge in E. lia.
Qed.

Lemma recv_Some (key : string) (l l' : gmap string nat) :
  recv key l = Some l' ->
  tokens key l = S (tokens key l') /\
  forall k, k <> key -> tokens k l' = tokens k l.
Proof.
  unfold recv. intros H.
  destruct (tokens key l) as [| n] eqn:E; [discriminate |].
  injection H as <-. split.
  - unfold tokens. by rewrite lookup_insert_eq.
  - intros k Hk. unfold tokens. by rewrite lookup_insert_ne.
Qed.

Lemma holders_nil (key : string) : holders key [] = 0%nat.
Proof. reflexivity. Qed.

Lemma holders_cons (key : string) (p : pc) (ps : list pc) :
  holders key (p :: ps) = (weight key p + holders key ps)%nat.
Proof.
  unfold holders, weight. rewrite filter_cons.
  destruct (decide (p = Critical key)); reflexivity.
Qed.

Lemma holders_app (key : string) (ps qs : list pc) :
  holders key (ps ++ qs) = (holders key ps + holders key qs)%nat.
Proof.
  unfold holders. by rewrite filter_app, length_app.
Qed.

(** Replacing the state of one goroutine moves the count by the
    difference of the two weights. *)
Lemma holders_insert (key : string) (ps : list pc) (i : nat) (p q : pc) :
  ps !! i = Some p ->
  (holders key (<[i := q]> ps) + weight key p
   = holders key ps + weight key q)%nat.
Proof.
  revert i. induction ps as [| a ps IH]; intros i H; [done |].
  destruct i as [| i]; simpl in *.
  - injection H as ->. rewrite !holders_cons. lia.
  - rewrite !holders_cons. specialize (IH i H). lia.
Qed.

Lemma weight_Idle (key : string) : weight key Idle = 0%nat.
Proof. reflexivity. Qed.

Lemma weight_AtLock (key k : string) : weight key (AtLock k) = 0%nat.
Proof. reflexivity. Qed.

Lemma weight_AtTryLock (key k : string) : weight key (AtTryLock k) = 0%nat.
Proof. reflexivity. Qed.

Lemma weight_Critical_eq (key : string) : weight key (Critical key) = 1%nat.
Proof. unfold weight. by rewrite decide_True. Qed.

Lemma weight_Critical_ne (key k : string) :
  k <> key -> weight key (Critical k) = 0%nat.
Proof. intros H. unfold weight. rewrite decide_False; [done | congruence]. Qed.

Lemma balanced_init : balanced init.
Proof.
  intros key. unfold tokens, init, newKeyedMutex. cbn [locks procs].
  rewrite lookup_empty. simpl. split; [reflexivity | lia].
Qed.

Lemma balanced_step (s s' : sys) : balanced s -> step s s' -> balanced s'.
Proof.
  intros Hb Hs key. destruct (Hb key) as [Hh Ht].
  destruct Hs as [| i k Hi | i k l' Hi Hsend | i k Hi | i k l' Hi Hsend
                  | i k Hi Hsend | i k l' Hi Hrecv]; cbn [locks procs].
  - rewrite holders_app, holders_cons, holders_nil, weight_Idle.
    split; [lia | done].
  - pose proof (holders_insert key _ i _ (AtLock k) Hi) as H.
    rewrite weight_Idle, weight_AtLock in H. rewrite tokens_ch. lia.
  - pose proof (holders_insert key _ i _ (Critical k) Hi) as H.
    rewrite weight_AtLock in H.
    destruct (send_Some _ _ _ Hsend) as (H0 & H1 & Hother).
    destruct (decide (k = key)) as [-> | Hne].
    + rewrite weight_Critical_eq in H. lia.
    + rewrite (weight_Critical_ne _ _ Hne) in H.
      rewrite (Hother key) by congruence. lia.
  - pose proof (holders_insert key _ i _ (AtTryLock k) Hi) as H.
    rewrite weight_Idle, weight_AtTryLock in H. rewrite tokens_ch. lia.
  - pose proof (holders_insert key _ i _ (Critical k) Hi) as H.
    rewrite weight_AtTryLock in H.
    destruct (send_Some _ _ _ Hsend) as (H0 & H1 & Hother).
    destruct (decide (k = key)) as [-> | Hne].
    + rewrite weight_Critical_eq in H. lia.
    + rewrite (weight_Critical_ne _ _ Hne) in H.
      rewrite (Hother key) by congruence. lia.
  - pose proof (holders_insert key _ i _ Idle Hi) as H.
    rewrite weight_Idle, weight_AtTryLock in H. lia.
  - pose proof (holders_insert key _ i _ Idle Hi) as H.
    rewrite weight_Idle in H.
    destruct (recv_Some _ _ _ Hrecv) as (H0 & Hother).
    destruct (decide (k = key)) as [-> | Hne].
    + rewrite weight_Critical_eq in H. lia.
    + rewrite (weight_Critical_ne _ _ Hne) in H.
      rewrite (Hother key) by congruence. lia.
Qed.

Lemma balanced_reachable (s : sys) : reachable s -> balanced s.
Proof.
  induction 1 as [| s s' _ IH Hs]; [apply balanced_init |].
  exact (balanced_step _ _ IH Hs).
Qed.

(** C3. In every state that the goroutines of a process can reach through
    [Lock], [TryLock] and their releasers (each run once by the goroutine
    that obtained it, as the handler's [defer unlock()] does), at most one
    goroutine holds the lock of, and so is inside the critical section of,
    any given full key. *)
Theorem keyedMutex_mutual_exclusion (s : sys) (key : string) :
  reachable s -> (holders key (procs s) <= 1)%nat.
Proof.
  intros Hr. destruct (balanced_reachable s Hr key) as [Hh Ht]. lia.
Qed.

End KeyedMutexFacts.

(** *** Cooldown tracking *)

Section Cooldown.

Context {T : Type} {C : Codec T}.
Variable cfg : handlerConfig.

(** C8. [shouldRefreshNow] answers true exactly when the cooldown is
    non-positive, or no refresh is recorded for the key, or the time elapsed
    since the recorded refresh is at least the cooldown; it changes
    nothing.  [setLastRefreshNow] leaves the handler as it is when the
    cooldown is non-positive and otherwise records the current clock
    reading for the key. *)
Theorem cooldown_tracking (fullKey : string) (w : World T) :
  (exists b : bool,
      shouldRefreshNow cfg fullKey w = Ret b w [] /\
      (b = true <->
       refreshCooldown cfg <= 0 \/
       lastRefreshByKey w !! fullKey = None \/
       exists last, lastRefreshByKey w !! fullKey = Some last /\
                    refreshCooldown cfg <= Time.Since (now w) last)) /\
  (refreshCooldown cfg <= 0 ->
   world_of (setLastRefreshNow cfg fullKey w) = w) /\
  (0 < refreshCooldown cfg ->
   world_of (setLastRefreshNow cfg fullKey w)
   = set_lastRefreshByKey (<[fullKey := now w]> (lastRefreshByKey w)) w).
Proof.
  unfold shouldRefreshNow, setLastRefreshNow. repeat split.
  - destruct (refreshCooldown cfg <=? 0) eqn:Hc.
    + exists true. split; [reflexivity |]. apply Z.leb_le in Hc. tauto.
    + apply Z.leb_gt in Hc.
      destruct (lastRefreshByKey w !! fullKey) as [last |] eqn:Hl.
      * eexists. split; [reflexivity |]. rewrite Z.leb_le. split.
        -- intros H. right. right. exists last. done.
        -- intros [H | [H | (l & Hl' & H)]]; [lia | discriminate |].
           injection Hl' as <-. done.
      * exists true. split; [reflexivity |]. tauto.
  - intros Hc. apply Z.leb_le in Hc. by rewrite Hc.
  - intros Hc. apply Z.leb_gt in Hc. by rewrite Hc.
Qed.

End Cooldown.

(** *** Symbolic execution of runs *)

Ltac step_world :=
  cbn [bind ret world_of trace_of value_of fst snd app negb nth
       Nat.ltb Nat.leb Nat.eqb is_redis_Nil
       store faults lastRefreshByKey localLocks now genCalls rng selects
       spawned set_store set_faults set_lastRefreshByKey set_localLocks
       set_now set_genCalls set_rng set_selects set_spawned] in *.

Ltac unfold_ops :=
  unfold GetOrRefresh, handleHitRefresh, missSyncWriteThenReturn,
    missReturnThenAsyncWrite, missStaleWhileRevalidate, missFailFast,
    missRefreshAhead, missCooperativeRefresh, missBestEffort,
    missProbabilisticRefresh, spawnBackgroundMissWrite,
    spawnBackgroundRefresh, spawnStaleRefresh, scheduleRefreshAhead,
    enableProbabilisticRefresh, shouldProbabilisticRefresh,
    shouldRefreshAhead, lockProbe, getFromKey, setToKey, Get, Set_,
    json_Marshal, shouldRefreshNow, setLastRefreshNow, Lock, TryLock,
    releaser, rdb_Get, rdb_Set, rdb_Exists, rdb_TTL, next_fault,
    next_select, callGen, go_, time_Now, time_Sleep, rand_Float64,
    lookup_live, fault_at, keyedMutex.send, keyedMutex.recv,
    keyedMutex.capacity, bind, ret in *.

Lemma nth_tl {A : Type} (n : nat) (l : list A) (d : A) :
  nth n (tl l) d = nth (S n) l d.
Proof. destruct l; [by destruct n | reflexivity]. Qed.

Lemma effectiveTTL_WithTTL (cfg : handlerConfig) (t : Z) :
  effectiveTTL cfg (applyOpts [WithTTL t])
  = if t <=? 0 then defaultTTL cfg else t.
Proof. reflexivity. Qed.

(** Rewrite with what is known about a scrutinee. *)
Ltac use_known :=
  match goal with
  | H : ?x = _ |- context [?x] =>
      lazymatch x with
      | _ _ => rewrite H
      end
  end.

(** Run a program along the path that the hypotheses describe. *)
Ltac symex :=
  repeat first
    [ progress step_world
    | progress (rewrite ?tokens_ch, ?tokens_insert_eq, ?nth_tl,
                  ?effectiveTTL_WithTTL)
    | use_known ].

(** Split on a scrutinee that is not itself a case analysis. *)
Ltac case_inner :=
  match goal with
  | |- context [match ?x with _ => _ end] =>
      lazymatch x with
      | context [match _ with _ => _ end] => fail
      | _ => destruct x eqn:?
      end
  end.

(** Run a program along every path. *)
Ltac crunch :=
  repeat first
    [ progress step_world
    | progress (rewrite ?tokens_ch, ?tokens_insert_eq, ?nth_tl,
                  ?effectiveTTL_WithTTL)
    | use_known
    | progress simplify_eq
    | case_inner ].

Section BestEffort.

Context {T : Type} {C : Codec T}.
Variable cfg : handlerConfig.

(** C6. The BestEffort miss path always returns, and never with an error:
    a failing generator gives the zero value, a succeeding one gives the
    generated value whether or not the write to the backend succeeds;
    [FromCache] is false and [CachedAt] is the current clock reading. *)
Theorem missBestEffort_never_fails (key : string) (ttl : Z)
  (gen : Generator T) (w : World T) :
  exists (w' : World T) (tr : list Event),
    missBestEffort cfg key ttl gen w
    = Ret ({| Value := match gen (genCalls w) with
                       | inl v => v
                       | inr _ => zero
                       end;
              FromCache := false;
              CachedAt := Some (now w) |}, None) w' tr.
Proof.
  unfold_ops. step_world.
  repeat (case_match; step_world; simplify_eq);
    eexists _, _; reflexivity.
Qed.

End BestEffort.

(** *** The synchronous miss path *)

Section SyncMiss.

Context {T : Type} {C : Codec T}.
Variable cfg : handlerConfig.

(** C2. [missSyncWriteThenReturn] first takes the lock of the full key:
    while another goroutine holds it the caller parks, having done nothing.
    With the lock free it takes the lock, re-reads the key and releases the
    lock on the way out.  If the re-read finds the key, that cached result
    is returned and the generator is not invoked.  If the re-read reports
    the key missing and the generator succeeds, the value is written under
    the effective TTL and returned with [FromCache = false]; if that write
    fails (in the encoder or in the backend), an error is returned with the
    zero value.  A re-read that fails otherwise, and a failing generator,
    return their error without any write. *)
Theorem missSyncWriteThenReturn_spec (key : string) (ttl : Z)
  (gen : Generator T) (w : World T) :
  let k := fullKey cfg key in
  let eff := if ttl <=? 0 then defaultTTL cfg else ttl in
  let o := missSyncWriteThenReturn cfg key ttl gen w in
  (lock_free k w = false ->
   value_of o = None /\ trace_of o = [] /\
   store (world_of o) = store w /\ genCalls (world_of o) = genCalls w) /\
  (lock_free k w = true ->
   (forall e v0,
       fault_at 0 w = false ->
       lookup_live k w = Some e ->
       unmarshal (payload e) = Some v0 ->
       value_of o
       = Some ({| Value := v0; FromCache := true; CachedAt := Some (now w) |},
               None) /\
       trace_of o = [EvLock k; EvRdbGet k; EvUnlock k] /\
       store (world_of o) = store w /\
       genCalls (world_of o) = genCalls w) /\
   (forall v b,
       fault_at 0 w = false ->
       lookup_live k w = None ->
       gen (genCalls w) = inl v ->
       marshal v = Some b ->
       fault_at 1 w = false ->
       value_of o
       = Some ({| Value := v; FromCache := false; CachedAt := Some (now w) |},
               None) /\
       trace_of o
       = [EvLock k; EvRdbGet k; EvGen (genCalls w); EvMarshal true;
          EvRdbSet k b eff true; EvSetLastRefresh k; EvUnlock k] /\
       store (world_of o)
       = <[k := {| payload := b;
                   expiry := if 0 <? eff then Some (now w + eff) else None |}]>
           (store w)) /\
   (forall v,
       fault_at 0 w = false ->
       lookup_live k w = None ->
       gen (genCalls w) = inl v ->
       marshal v = None \/ fault_at 1 w = true ->
       (exists err, value_of o = Some (zeroResult, Some err)) /\
       store (world_of o) = store w) /\
   (forall err,
       fault_at 0 w = false ->
       lookup_live k w = None ->
       gen (genCalls w) = inr err ->
       value_of o = Some (zeroResult, Some (ErrWrap "generator" err)) /\
       trace_of o = [EvLock k; EvRdbGet k; EvGen (genCalls w); EvUnlock k] /\
       store (world_of o) = store w) /\
   (fault_at 0 w = true ->
    value_of o = Some (zeroResult, Some (ErrWrap "redis get" ErrTransport)) /\
    trace_of o = [EvLock k; EvRdbGet k; EvUnlock k] /\
    store (world_of o) = store w /\
    genCalls (world_of o) = genCalls w)).
Proof.
  intros k eff o. subst k eff o. unfold lock_free. split.
  - intros Hheld. apply Nat.eqb_neq in Hheld.
    unfold_ops. step_world. rewrite tokens_ch.
    destruct (keyedMutex.tokens _ _) as [| n]; [done |].
    step_world. done.
  - intros Hfree. apply Nat.eqb_eq in Hfree.
    repeat split; intros; destruct_or?; unfold lookup_live, fault_at in *;
      repeat case_match; simplify_eq; unfold_ops; symex; crunch.
    all: try reflexivity.
    all: try congruence.
    all: eexists; reflexivity.
Qed.

End SyncMiss.

(** *** The write pathway *)

Lemma ledgered_app (t1 t2 : list Event) :
  ledgered t1 = true -> ledgered (t1 ++ t2) = ledgered t2.
Proof.
  induction t1 as [| e t1 IH]; [reflexivity |]. intros H.
  destruct e; try exact (IH H).
  destruct ok; [| exact (IH H)].
  destruct t1 as [| [] t1]; try discriminate H.
  cbn [app ledgered] in *. apply andb_true_iff in H as [Hk H].
  rewrite Hk. cbn [andb]. exact (IH H).
Qed.

Lemma ledgered_except_app (x : string) (t1 t2 : list Event) :
  ledgered_except x t1 = true ->
  ledgered_except x t2 = true ->
  ledgered_except x (t1 ++ t2) = true.
Proof.
  induction t1 as [| e t1 IH]; [done |]. intros H1 H2.
  destruct e; try exact (IH H1 H2).
  destruct ok; [| exact (IH H1 H2)].
  cbn [app ledgered_except] in *.
  apply andb_true_iff in H1 as [Hk H1]. rewrite (IH H1 H2), andb_true_r.
  destruct (bool_decide (k = x)); [reflexivity |]. cbn [orb] in *.
  destruct t1 as [| [] t1]; try discriminate Hk. exact Hk.
Qed.

(** After an encoding has been consumed or is absent, [encoded] composes. *)
Lemma encoded_app (t1 t2 : list Event) :
  encoded t1 = true -> encoded t2 = true -> encoded (t1 ++ t2) = true.
Proof.
  remember (length t1) as n eqn:Hn. revert t1 Hn.
  induction n as [n IH] using lt_wf_ind. intros t1 Hn H1 H2.
  assert (forall l : list Event,
             (length l < n)%nat -> encoded l = true ->
             encoded (l ++ t2) = true) as IH'.
  { intros l Hl H. exact (IH (length l) Hl l eq_refl H H2). }
  clear IH. subst n.
  destruct t1 as [| e t1]; [done |].
  assert (encoded t1 = true -> encoded (t1 ++ t2) = true) as Htl.
  { apply IH'. cbn [length]. lia. }
  destruct e; cbn [app encoded] in *; try (by apply Htl);
    try discriminate H1.
  destruct ok; [| by apply Htl].
  destruct t1 as [| e' t1].
  - cbn [app]. destruct t2 as [| [] t2]; done.
  - destruct e'; try (by apply Htl).
    cbn [app]. apply IH'; [cbn [length]; lia | done].
Qed.

Section TraceInvariant.

Context {T : Type} {C : Codec T}.
Variable cfg : handlerConfig.

(** A trace property that holds of the empty trace and of every quiet
    event, is closed under concatenation, and holds of the runs of [Set]. *)
Variable P : list Event -> bool.
Hypothesis P_nil : P [] = true.
Hypothesis P_quiet : forall e, quiet e = true -> P [e] = true.
Hypothesis P_app :
  forall t1 t2, P t1 = true -> P t2 = true -> P (t1 ++ t2) = true.
Hypothesis P_Set :
  forall key (v : T) opts, always P (Set_ cfg key v opts).

Lemma always_ret {A : Type} (a : A) : always P (ret (T := T) a).
Proof. intros w. exact P_nil. Qed.

Lemma always_bind {A B : Type} (m : M T A) (f : A -> M T B) :
  always P m -> (forall a, always P (f a)) -> always P (bind m f).
Proof.
  intros Hm Hf w. unfold bind. specialize (Hm w).
  destruct (m w) as [a w1 t1 | w1 t1]; [| exact Hm].
  specialize (Hf a w1).
  destruct (f a w1) as [b w2 t2 | w2 t2]; cbn [trace_of] in *;
    by apply P_app.
Qed.

Lemma always_releaser (key : string) : always P (releaser (T := T) key).
Proof.
  intros w. unfold releaser.
  destruct (keyedMutex.recv key (localLocks w)); cbn [trace_of];
    [by apply P_quiet | exact P_nil].
Qed.

Lemma always_bind_Lock {B : Type} (key : string) (f : M T unit -> M T B) :
  always P (f (releaser key)) -> always P (bind (Lock key) f).
Proof.
  intros Hf w. unfold bind, Lock.
  destruct (keyedMutex.send key _); cbn [trace_of]; [| exact P_nil].
  specialize (Hf (set_localLocks g w)).
  destruct (f _ _); cbn [trace_of] in *;
    (apply P_app; [by apply P_quiet | done]).
Qed.

Lemma always_bind_TryLock {B : Type} (key : string)
  (f : M T unit * bool -> M T B) :
  always P (f (releaser key, true)) ->
  always P (f (ret tt, false)) ->
  always P (bind (TryLock key) f).
Proof.
  intros Ht Hf w. unfold bind, TryLock.
  destruct (keyedMutex.send key _); cbn [trace_of].
  - specialize (Ht (set_localLocks g w)).
    destruct (f _ _); cbn [trace_of] in *;
      (apply P_app; [by apply P_quiet | done]).
  - match goal with
    | |- context [f ?p ?w'] => specialize (Hf w'); destruct (f p w')
    end; cbn [trace_of] in *; (apply P_app; [by apply P_quiet | done]).
Qed.

Lemma always_time_Now : always P (time_Now (T := T)).
Proof. intros w. exact P_nil. Qed.

Lemma always_time_Sleep (d : Z) : always P (time_Sleep (T := T) d).
Proof. intros w. exact P_nil. Qed.

Lemma always_rand_Float64 : always P (rand_Float64 (T := T)).
Proof. intros w. exact P_nil. Qed.

Lemma always_next_select : always P (next_select (T := T)).
Proof. intros w. exact P_nil. Qed.

Lemma always_go (t : Task T) : always P (go_ t).
Proof. intros w. exact P_nil. Qed.

Lemma always_callGen (gen : Generator T) : always P (callGen gen).
Proof. intros w. by apply P_quiet. Qed.

Lemma always_rdb_Get (k : string) : always P (rdb_Get (T := T) k).
Proof.
  intros w. unfold rdb_Get, next_fault.
  repeat case_match; by apply P_quiet.
Qed.

Lemma always_rdb_Exists (k : string) : always P (rdb_Exists (T := T) k).
Proof.
  intros w. unfold rdb_Exists, next_fault.
  repeat case_match; by apply P_quiet.
Qed.

Lemma always_rdb_TTL (k : string) : always P (rdb_TTL (T := T) k).
Proof.
  intros w. unfold rdb_TTL, next_fault.
  repeat case_match; by apply P_quiet.
Qed.

Lemma always_shouldRefreshNow (k : string) :
  always P (shouldRefreshNow (T := T) cfg k).
Proof. intros w. unfold shouldRefreshNow. repeat case_match; exact P_nil. Qed.

Lemma always_enableProbabilisticRefresh key ttl (gen : Generator T) beta :
  always P (enableProbabilisticRefresh cfg key ttl gen beta).
Proof. intros w. exact P_nil. Qed.

Lemma always_shouldProbabilisticRefresh (key : string) (ttl : Z) (beta : Q) :
  always P (shouldProbabilisticRefresh (T := T) cfg key ttl beta).
Proof.
  intros w. unfold shouldProbabilisticRefresh.
  case_match; exact P_nil.
Qed.

(** Decompose a program into the pieces above. *)
Ltac pieces :=
  repeat first
    [ apply always_ret
    | apply always_bind_Lock
    | apply always_bind_TryLock
    | apply always_releaser
    | apply always_time_Now
    | apply always_time_Sleep
    | apply always_rand_Float64
    | apply always_next_select
    | apply always_go
    | apply always_callGen
    | apply always_rdb_Get
    | apply always_rdb_Exists
    | apply always_rdb_TTL
    | apply always_shouldRefreshNow
    | apply always_enableProbabilisticRefresh
    | apply always_shouldProbabilisticRefresh
    | apply P_Set
    | match goal with
      | H : context [always] |- always _ _ => apply H
      end
    | apply always_bind; [| intros ?]
    | match goal with
      | |- always _ (match ?x with _ => _ end) => destruct x
      | |- always _ (let _ := _ in _) => cbv zeta
      end
    | progress cbn [fst snd negb] ].

Lemma always_Get (key : string) : always P (Get (T := T) cfg key).
Proof. unfold Get. pieces. Qed.

Lemma always_missSyncWriteThenReturn key ttl (gen : Generator T) :
  always P (missSyncWriteThenReturn cfg key ttl gen).
Proof. pose proof always_Get. unfold missSyncWriteThenReturn. pieces. Qed.

Lemma always_spawnBackgroundMissWrite key ttl (v : T) :
  always P (spawnBackgroundMissWrite cfg key ttl v).
Proof. unfold spawnBackgroundMissWrite. pieces. Qed.

Lemma always_spawnBackgroundRefresh key ttl (gen : Generator T) :
  always P (spawnBackgroundRefresh cfg key ttl gen).
Proof. unfold spawnBackgroundRefresh. pieces. Qed.

Lemma always_getFromKey (k : string) : always P (getFromKey (T := T) k).
Proof. unfold getFromKey. pieces. Qed.

Lemma always_shouldRefreshAhead (k : string) (ttl : Z) (th : Q) :
  always P (shouldRefreshAhead (T := T) k ttl th).
Proof. unfold shouldRefreshAhead. pieces. Qed.

Lemma always_handleHitRefresh key ttl (gen : Generator T) p co :
  always P (handleHitRefresh cfg key ttl gen p co).
Proof.
  pose proof always_shouldRefreshAhead.
  unfold handleHitRefresh. destruct p; pieces.
Qed.

Lemma always_lockProbe (k : string) : always P (lockProbe (T := T) k).
Proof. unfold lockProbe. pieces. Qed.

Lemma always_scheduleRefreshAhead key ttl (gen : Generator T) th :
  always P (scheduleRefreshAhead cfg key ttl gen th).
Proof.
  pose proof always_spawnBackgroundRefresh.
  unfold scheduleRefreshAhead. pieces.
Qed.

Lemma always_GetOrRefresh key (gen : Generator T) opts :
  always P (GetOrRefresh cfg key gen opts).
Proof.
  pose proof always_Get. pose proof always_missSyncWriteThenReturn.
  pose proof always_getFromKey. pose proof always_handleHitRefresh.
  pose proof always_lockProbe.
  unfold GetOrRefresh, missReturnThenAsyncWrite, missStaleWhileRevalidate,
    missFailFast, missRefreshAhead, missCooperativeRefresh, missBestEffort,
    missProbabilisticRefresh.
  pieces.
Qed.

(** The stale refresh, for a property that also holds of the runs of
    [setToKey] on the stale key. *)
Lemma always_spawnStaleRefresh key ttl (gen : Generator T) :
  (forall (v : T) d,
      always P (setToKey (fullKey cfg (key +:+ ":stale")) v d)) ->
  always P (spawnStaleRefresh cfg key ttl gen).
Proof. intros H. unfold spawnStaleRefresh. pieces. Qed.

Lemma always_run_task (t : Task T) :
  (forall key ttl gen, t <> GoStaleRefresh key ttl gen) ->
  always P (run_task cfg t).
Proof.
  intros Hne.
  pose proof always_spawnBackgroundMissWrite.
  pose proof always_spawnBackgroundRefresh.
  pose proof always_scheduleRefreshAhead.
  pose proof always_lockProbe.
  destruct t as [| | k d g | | |]; cbn [run_task];
    [| | by destruct (Hne k d g) | | |]; pieces.
Qed.

End TraceInvariant.

Lemma string_append_assoc (a b c : string) :
  (a +:+ b) +:+ c = a +:+ (b +:+ c).
Proof.
  induction a as [| x a IH]; [reflexivity |].
  change (String x ((a +:+ b) +:+ c) = String x (a +:+ (b +:+ c))).
  by rewrite IH.
Qed.

Lemma string_length_append (a b : string) :
  String.length (a +:+ b) = (String.length a + String.length b)%nat.
Proof.
  induction a as [| x a IH]; [reflexivity |].
  change (S (String.length (a +:+ b))
          = S (String.length a + String.length b)).
  by rewrite IH.
Qed.

Lemma fullKey_length (cfg : handlerConfig) (k : string) :
  exists n : nat,
    forall s, String.length (fullKey cfg (k +:+ s))
              = (n + String.length s)%nat /\
              String.length (fullKey cfg k) = n.
Proof.
  unfold fullKey. destruct (String.eqb (prefix cfg) "").
  - exists (String.length k). intros s.
    rewrite string_length_append. done.
  - exists (String.length (prefix cfg +:+ ":") + String.length k)%nat.
    intros s. rewrite !string_length_append. cbn. split; lia.
Qed.

Lemma fullKey_stale_ne (cfg : handlerConfig) (k : string) :
  fullKey cfg k <> fullKey cfg (k +:+ ":stale").
Proof.
  destruct (fullKey_length cfg k) as [n Hn]. intros Heq.
  destruct (Hn ":stale") as [H1 H2]. rewrite <- Heq, H2 in H1.
  cbn in H1. lia.
Qed.

Section WritePathway.

Context {T : Type} {C : Codec T}.
Variable cfg : handlerConfig.

Ltac refl_decide :=
  repeat match goal with
    | |- context [bool_decide (?a = ?a)] =>
        rewrite (bool_decide_eq_true_2 (a = a) eq_refl)
    end.

Lemma ledgered_quiet (e : Event) : quiet e = true -> ledgered [e] = true.
Proof. by destruct e. Qed.

Lemma ledgered_app_true (t1 t2 : list Event) :
  ledgered t1 = true -> ledgered t2 = true -> ledgered (t1 ++ t2) = true.
Proof. intros H1 H2. by rewrite ledgered_app. Qed.

Lemma ledgered_Set key (v : T) opts : always ledgered (Set_ cfg key v opts).
Proof.
  intros w. unfold_ops. crunch; cbn [ledgered]; refl_decide; reflexivity.
Qed.

Lemma ledgered_except_quiet (x : string) (e : Event) :
  quiet e = true -> ledgered_except x [e] = true.
Proof. by destruct e. Qed.

Lemma ledgered_except_Set (x : string) key (v : T) opts :
  always (ledgered_except x) (Set_ cfg key v opts).
Proof.
  intros w. unfold_ops. crunch; cbn [ledgered_except]; refl_decide;
    rewrite ?orb_true_r; reflexivity.
Qed.

Lemma ledgered_except_setToKey (x : string) (v : T) (d : Z) :
  always (ledgered_except x) (setToKey x v d).
Proof.
  intros w. unfold_ops. crunch; cbn [ledgered_except]; refl_decide;
    reflexivity.
Qed.

Lemma encoded_quiet (e : Event) : quiet e = true -> encoded [e] = true.
Proof. by destruct e. Qed.

Lemma encoded_Set key (v : T) opts : always encoded (Set_ cfg key v opts).
Proof. intros w. unfold_ops. crunch; reflexivity. Qed.

Lemma encoded_setToKey (k : string) (v : T) (d : Z) :
  always encoded (setToKey k v d).
Proof. intros w. unfold_ops. crunch; reflexivity. Qed.

Lemma setToKey_ledger (k : string) (v : T) (d : Z) (w : World T) :
  lastRefreshByKey (world_of (setToKey k v d w)) = lastRefreshByKey w.
Proof. unfold_ops. crunch; reflexivity. Qed.

(** C1, as the code has it.  In every run of [Set], of [GetOrRefresh]
    under any policy, and of every background task other than the stale
    refresh, each successful backend write is directly followed by the call
    of [setLastRefreshNow] for the written key.  In the stale refresh this
    holds of the write to the main key; the write to the stale key goes
    through [setToKey], which never touches the ledger.  Every backend
    write, on every one of these paths, directly follows the encoding of
    the value. *)
Theorem write_pathway :
  (forall key (v : T) opts, always ledgered (Set_ cfg key v opts)) /\
  (forall key (gen : Generator T) opts,
      always ledgered (GetOrRefresh cfg key gen opts)) /\
  (forall t : Task T,
      (forall key ttl gen, t <> GoStaleRefresh key ttl gen) ->
      always ledgered (run_task cfg t)) /\
  (forall key ttl (gen : Generator T),
      always (ledgered_except (fullKey cfg (key +:+ ":stale")))
        (spawnStaleRefresh cfg key ttl gen) /\
      fullKey cfg key <> fullKey cfg (key +:+ ":stale")) /\
  (forall k (v : T) d w,
      lastRefreshByKey (world_of (setToKey k v d w)) = lastRefreshByKey w) /\
  (forall key (v : T) opts, always encoded (Set_ cfg key v opts)) /\
  (forall key (gen : Generator T) opts,
      always encoded (GetOrRefresh cfg key gen opts)) /\
  (forall t : Task T, always encoded (run_task cfg t)).
Proof.
  refine (conj _ (conj _ (conj _ (conj _ (conj _ (conj _ (conj _ _))))))).
  - apply ledgered_Set.
  - apply always_GetOrRefresh;
      auto using ledgered_quiet, ledgered_app_true, ledgered_Set.
  - intros t Hne. apply always_run_task;
      auto using ledgered_quiet, ledgered_app_true, ledgered_Set.
  - intros key d gen. split; [| apply fullKey_stale_ne].
    apply always_spawnStaleRefresh;
      auto using ledgered_except_quiet, ledgered_except_app,
        ledgered_except_Set, ledgered_except_setToKey.
  - apply setToKey_ledger.
  - apply encoded_Set.
  - apply always_GetOrRefresh;
      auto using encoded_quiet, encoded_app, encoded_Set.
  - intros t. destruct t as [k d v | k d g | k d g | k d g q | k d g q | k].
    3: { cbn [run_task]. apply always_spawnStaleRefresh;
           auto using encoded_quiet, encoded_app, encoded_Set,
             encoded_setToKey. }
    all: apply always_run_task;
      auto using encoded_quiet, encoded_app, encoded_Set; discriminate.
Qed.

End WritePathway.

(** *** Round trip and the stale companion key *)

Section RoundTrip.

Context {T : Type} {C : Codec T}.
Variable cfg : handlerConfig.

(** What a successful [Set] leaves behind. *)
Lemma Set_ok_inv (key : string) (v : T) (opts : list CallOption)
  (w w1 : World T) (tr : list Event) :
  Set_ cfg key v opts w = Ret None w1 tr ->
  exists b,
    marshal v = Some b /\
    now w1 = now w /\
    faults w1 = tl (faults w) /\
    spawned w1 = spawned w /\
    genCalls w1 = genCalls w /\
    store w1
    = <[fullKey cfg key :=
          {| payload := b;
             expiry := if 0 <? effectiveTTL cfg (applyOpts opts)
                       then Some (now w + effectiveTTL cfg (applyOpts opts))
                       else None |}]> (store w).
Proof.
  revert w1 tr. unfold_ops. intros w1 tr. crunch; intros H; simplify_eq;
    eexists; repeat split; reflexivity.
Qed.

(** C5. For a JSON-representable value type: after a successful
    [Set(K, v)], a [Get(K)] that the backend answers before the entry
    expires returns [v] with [FromCache = true]; the bytes [Set] stored
    decode to [v]. *)
Theorem Set_then_Get (key : string) (v : T) (opts : list CallOption)
  (w w1 : World T) (tr : list Event) (d : Z) :
  representable C ->
  Set_ cfg key v opts w = Ret None w1 tr ->
  (forall e, store w1 !! fullKey cfg key = Some e ->
             live (now w1 + d) e = true) ->
  fault_at 0 w1 = false ->
  value_of (Get cfg key (tick d w1))
  = Some ({| Value := v; FromCache := true; CachedAt := Some (now w + d) |},
          None) /\
  exists b, marshal v = Some b /\ unmarshal b = Some v /\
            payload <$> (store w1 !! fullKey cfg key) = Some b.
Proof.
  intros Hrep Hset Hlive Hf.
  destruct (Set_ok_inv _ _ _ _ _ _ Hset) as (b & Hb & Hnow & _ & _ & _ & Hst).
  clear Hset.
  pose proof (Hrep v b Hb) as Hdec.
  assert (store w1 !! fullKey cfg key
          = Some {| payload := b;
                    expiry := if 0 <? effectiveTTL cfg (applyOpts opts)
                              then Some (now w
                                         + effectiveTTL cfg (applyOpts opts))
                              else None |}) as Hlk.
  { rewrite Hst. apply lookup_insert_eq. }
  specialize (Hlive _ Hlk). clear Hst. split.
  - unfold fault_at in Hf. unfold_ops. unfold tick. symex.
    cbn [payload]. symex. rewrite ?Hnow. reflexivity.
  - exists b. rewrite Hlk. done.
Qed.

Lemma fullKey_stale (key : string) :
  fullKey cfg (key +:+ ":stale") = fullKey cfg key +:+ ":stale".
Proof.
  unfold fullKey. destruct (String.eqb (prefix cfg) ""); [reflexivity |].
  symmetry. apply string_append_assoc.
Qed.

(** C10. The full key of [k ++ ":stale"] is the stale companion key of
    [k].  So after a successful [Set(k ++ ":stale", v)], a
    [GetOrRefresh(k)] under StaleWhileRevalidate that misses on [k] and
    whose stale read the backend answers before the entry expires returns
    [v] with [FromCache = true], without invoking the generator, and
    starts the stale refresh. *)
Theorem stale_key_aliasing (key : string) (v : T)
  (opts opts' : list CallOption) (gen : Generator T)
  (w w1 : World T) (tr : list Event) (d : Z) :
  fullKey cfg (key +:+ ":stale") = fullKey cfg key +:+ ":stale" /\
  (representable C ->
   Set_ cfg (key +:+ ":stale") v opts w = Ret None w1 tr ->
   effectiveMissPolicy cfg (applyOpts opts') = MissPolicyStaleWhileRevalidate ->
   lookup_live (fullKey cfg key) (tick d w1) = None ->
   (forall e, store w1 !! (fullKey cfg key +:+ ":stale") = Some e ->
              live (now w1 + d) e = true) ->
   fault_at 0 w1 = false ->
   fault_at 1 w1 = false ->
   let o := GetOrRefresh cfg key gen opts' (tick d w1) in
   value_of o
   = Some ({| Value := v; FromCache := true; CachedAt := Some (now w + d) |},
           None) /\
   trace_of o
   = [EvRdbGet (fullKey cfg key); EvRdbGet (fullKey cfg key +:+ ":stale")] /\
   genCalls (world_of o) = genCalls w /\
   spawned (world_of o)
   = spawned w
     ++ [GoStaleRefresh key (effectiveTTL cfg (applyOpts opts')) gen]).
Proof.
  split; [apply fullKey_stale |].
  intros Hrep Hset Hpol Hmiss Hlive Hf0 Hf1 o. subst o.
  destruct (Set_ok_inv _ _ _ _ _ _ Hset)
    as (b & Hb & Hnow & _ & Hsp & Hgc & Hst).
  clear Hset.
  pose proof (Hrep v b Hb) as Hdec.
  rewrite fullKey_stale in Hst.
  assert (store w1 !! (fullKey cfg key +:+ ":stale")
          = Some {| payload := b;
                    expiry := if 0 <? effectiveTTL cfg (applyOpts opts)
                              then Some (now w
                                         + effectiveTTL cfg (applyOpts opts))
                              else None |}) as Hlk.
  { rewrite Hst. apply lookup_insert_eq. }
  specialize (Hlive _ Hlk). clear Hst.
  unfold fault_at in Hf0, Hf1. unfold lookup_live, tick in Hmiss.
  cbn [store now set_now] in Hmiss.
  repeat case_match; simplify_eq.
  all: unfold GetOrRefresh; rewrite Hpol.
  all: unfold_ops; unfold tick; rewrite !fullKey_stale; symex.
  all: cbn [payload]; symex.
  all: rewrite ?Hnow, ?Hsp, ?Hgc; done.
Qed.

End RoundTrip.

(** *** The cooperative miss path *)

Section Cooperative.

Context {T : Type} {C : Codec T}.
Variable cfg : handlerConfig.


End Cooperative.

(** *** Hit-path refresh decisions *)




Lemma Qltb_true (x y : Q) : Qltb x y = true <-> (x < y)%Q.
Proof.
  unfold Qltb. rewrite negb_true_iff. split.
  - intros H. apply Qnot_le_lt. intros Hle.
    apply Qle_bool_iff in Hle. congruence.
  - intros H. destruct (Qle_bool y x) eqn:E; [| reflexivity].
    apply Qle_bool_iff in E. exfalso. exact (Qlt_not_le _ _ H E).
Qed.

Section HitRefresh.

Context {T : Type} {C : Codec T}.
Variable cfg : handlerConfig.











End HitRefresh.

(** *** The theorems at concrete handlers and worlds *)

Lemma boolCodec_representable : representable boolCodec.
Proof. intros [|] b H; cbn in H; injection H as <-; reflexivity. Qed.

(** C1 as stated fails: with a positive cooldown, the stale refresh writes
    the stale key successfully and no call of [setLastRefreshNow] follows;
    the ledger has an entry for the main key and none for the stale key. *)
Lemma stale_key_write_bypasses_ledger :
  ledgered (trace_of runStale) = false /\
  trace_of runStale
  = [EvTryLock "t:d" true; EvGen 0; EvMarshal true;
     EvRdbSet "t:d" bytes_true 60000000000 true; EvSetLastRefresh "t:d";
     EvMarshal true;
     EvRdbSet "t:d:stale" bytes_true 86400000000000 true;
     EvUnlock "t:d"] /\
  payload <$> store (world_of runStale) !! "t:d:stale" = Some bytes_true /\
  lastRefreshByKey (world_of runStale) !! "t:d:stale" = None /\
  lastRefreshByKey (world_of runStale) !! "t:d" = Some 100.
Proof. vm_compute. repeat split; reflexivity. Qed.

Lemma write_pathway_witness :
  ledgered
    (trace_of (run_task cfgT (GoBackgroundMissWrite "a" 0 true)
                 (emptyWorld bool 100)))
  = true.
Proof.
  apply (proj1 (proj2 (proj2 (write_pathway cfgT)))).
  discriminate.
Defined.

Lemma missSyncWriteThenReturn_spec_witness :
  lock_free (fullKey cfgT "a") (emptyWorld bool 100) = true /\
  value_of (missSyncWriteThenReturn cfgT "a" 0 (constGen true)
              (emptyWorld bool 100))
  = Some ({| Value := true; FromCache := false; CachedAt := Some 100 |},
          None).
Proof.
  split; [reflexivity |].
  apply (proj1 (proj2 (proj2 (missSyncWriteThenReturn_spec cfgT "a" 0
                                (constGen true) (emptyWorld bool 100))
                         eq_refl))
           true bytes_true);
    reflexivity.
Defined.

Lemma sysContended_reachable : keyedMutex.reachable sysContended.
Proof.
  pose (s1 := {| keyedMutex.locks := ∅;
                 keyedMutex.procs := [keyedMutex.Idle] |}).
  pose (s2 := {| keyedMutex.locks := ∅;
                 keyedMutex.procs := [keyedMutex.Idle; keyedMutex.Idle] |}).
  pose (s3 := {| keyedMutex.locks := {[ "a" := 0%nat ]};
                 keyedMutex.procs :=
                   [keyedMutex.AtLock "a"; keyedMutex.Idle] |}).
  pose (s4 := {| keyedMutex.locks := {[ "a" := 0%nat ]};
                 keyedMutex.procs :=
                   [keyedMutex.AtLock "a"; keyedMutex.AtLock "a"] |}).
  assert (keyedMutex.step keyedMutex.init s1) as H1
    by exact (keyedMutex.step_go keyedMutex.init).
  assert (keyedMutex.step s1 s2) as H2 by exact (keyedMutex.step_go s1).
  assert (keyedMutex.step s2 s3) as H3
    by exact (keyedMutex.step_Lock_ch s2 0 "a" eq_refl).
  assert (keyedMutex.step s3 s4) as H4
    by exact (keyedMutex.step_Lock_ch s3 1 "a" eq_refl).
  assert (keyedMutex.step s4 sysContended) as H5
    by exact (keyedMutex.step_Lock_send s4 0 "a" {[ "a" := 1%nat ]}
                eq_refl eq_refl).
  pose proof keyedMutex.reach_init as R0.
  pose proof (keyedMutex.reach_step _ _ R0 H1) as R1.
  pose proof (keyedMutex.reach_step _ _ R1 H2) as R2.
  pose proof (keyedMutex.reach_step _ _ R2 H3) as R3.
  pose proof (keyedMutex.reach_step _ _ R3 H4) as R4.
  exact (keyedMutex.reach_step _ _ R4 H5).
Qed.

Lemma keyedMutex_mutual_exclusion_witness :
  (keyedMutex.holders "a" (keyedMutex.procs sysContended) <= 1)%nat.
Proof.
  apply keyedMutex_mutual_exclusion. exact sysContended_reachable.
Defined.



Lemma Set_then_Get_witness :
  value_of (Get cfgT "e" (worldAfterSet cfgT))
  = Some ({| Value := true; FromCache := true; CachedAt := Some 1000000000 |},
          None).
Proof.
  refine (proj1 (Set_then_Get cfgT "e" true [WithTTL (10 * Time.Second)]
                   (emptyWorld bool 0)
                   (world_of (Set_ cfgT "e" true [WithTTL (10 * Time.Second)]
                                (emptyWorld bool 0)))
                   (trace_of (Set_ cfgT "e" true [WithTTL (10 * Time.Second)]
                                (emptyWorld bool 0)))
                   Time.Second boolCodec_representable _ _ _)).
  - vm_compute. reflexivity.
  - intros e He. vm_compute in He. injection He as <-. reflexivity.
  - reflexivity.
Defined.



Lemma cooldown_tracking_witness :
  world_of (setLastRefreshNow cfgT "t:a" (emptyWorld bool 100))
  = set_lastRefreshByKey {[ "t:a" := 100 ]} (emptyWorld bool 100).
Proof.
  apply (proj2 (proj2 (cooldown_tracking cfgT "t:a" (emptyWorld bool 100)))).
  reflexivity.
Defined.



Lemma stale_key_aliasing_witness :
  value_of (GetOrRefresh cfgT "e" (constGen false)
              [WithCallMissPolicy MissPolicyStaleWhileRevalidate]
              (tick Time.Second
                 (world_of (Set_ cfgT "e:stale" true [] (emptyWorld bool 0)))))
  = Some ({| Value := true; FromCache := true; CachedAt := Some 1000000000 |},
          None).
Proof.
  refine (proj1 (proj2 (stale_key_aliasing cfgT "e" true []
                          [WithCallMissPolicy MissPolicyStaleWhileRevalidate]
                          (constGen false) (emptyWorld bool 0)
                          (world_of (Set_ cfgT "e:stale" true []
                                       (emptyWorld bool 0)))
                          (trace_of (Set_ cfgT "e:stale" true []
                                       (emptyWorld bool 0)))
                          Time.Second)
                   boolCodec_representable _ eq_refl _ _ _ _)).
  - vm_compute. reflexivity.
  - vm_compute. reflexivity.
  - intros e He. vm_compute in He. injection He as <-. reflexivity.
  - reflexivity.
  - reflexivity.
Defined.

(** ** Further properties of the handler *)

(** Turn the boolean comparisons of a path into arithmetic facts. *)
Ltac arith_facts :=
  repeat match goal with
    | H : (_ <=? _) = true |- _ => apply Z.leb_le in H
    | H : (_ <=? _) = false |- _ => apply Z.leb_gt in H
    | H : (_ <? _) = true |- _ => apply Z.ltb_lt in H
    | H : (_ <? _) = false |- _ => apply Z.ltb_ge in H
    end.

(** The TTL that [GetOrRefresh] hands on survives the second defaulting in
    [Set]: it is positive, or it is the handler's default already. *)
Lemma effectiveTTL_cases (cfg : handlerConfig) (co : callOpts) :
  (effectiveTTL cfg co <=? 0) = false \/
  ((defaultTTL cfg <=? 0) = true /\ effectiveTTL cfg co = defaultTTL cfg).
Proof.
  unfold effectiveTTL. destruct (ttl co <=? 0) eqn:E; [| by left].
  destruct (defaultTTL cfg <=? 0) eqn:E'; [by right | by left].
Qed.

(** *** Keys *)

Lemma string_append_cancel_l (a x y : string) :
  a +:+ x = a +:+ y -> x = y.
Proof.
  induction a as [| c a IH]; [done |].
  intros H. apply IH. by injection H.
Qed.

Lemma fullKey_inj (cfg : handlerConfig) (k1 k2 : string) :
  fullKey cfg k1 = fullKey cfg k2 -> k1 = k2.
Proof.
  unfold fullKey. destruct (String.eqb (prefix cfg) ""); [done |].
  apply string_append_cancel_l.
Qed.

(** X1. One handler never maps two user keys to the same backend key. *)
Theorem fullKey_injective (cfg : handlerConfig) (k1 k2 : string) :
  fullKey cfg k1 = fullKey cfg k2 <-> k1 = k2.
Proof. split; [apply fullKey_inj | by intros ->]. Qed.

Section BasicOps.

Context {T : Type} {C : Codec T}.
Variable cfg : handlerConfig.


End BasicOps.

Section ReadPath.

Context {T : Type} {C : Codec T}.
Variable cfg : handlerConfig.

Lemma Get_returns (key : string) (w : World T) :
  exists r,
    Get cfg key w
    = Ret r (set_faults (tl (faults w)) w) [EvRdbGet (fullKey cfg key)].
Proof. unfold_ops. crunch; eexists; reflexivity. Qed.

(** X3. [Get] always returns after exactly one backend read, and changes
    nothing but the environment's fault script: backend, ledger, locks,
    generator count and goroutine queue are as before.  It reports the
    miss error exactly when the backend answered and holds no live entry
    for the key; a result without error has [FromCache = true] and the
    current clock reading, and a result with an error carries the zero
    value. *)
Theorem Get_read_only (key : string) (w : World T) :
  let k := fullKey cfg key in
  exists r,
    Get cfg key w = Ret r (set_faults (tl (faults w)) w) [EvRdbGet k] /\
    (snd r = Some ErrNil <->
     fault_at 0 w = false /\ lookup_live k w = None) /\
    (snd r = None <->
     fault_at 0 w = false /\
     exists e v, lookup_live k w = Some e /\
                 unmarshal (payload e) = Some v /\
                 fst r = {| Value := v; FromCache := true;
                            CachedAt := Some (now w) |}) /\
    (snd r <> None -> fst r = zeroResult).
Proof.
  intros k. subst k. unfold_ops. crunch; eexists; (split; [reflexivity |]).
  all: cbn [fst snd]; repeat split; try done; try congruence.
  all: try (intros [? ?]; congruence).
  all: try (intros [? (? & ? & ? & ? & ?)]; congruence).
  all: try (intros _; eauto 10).
  all: eexists _, _; repeat split; eauto.
Qed.

(** X4. A [Set] on one key leaves the backend entry of every other key of
    the handler as it was, whether it succeeds or fails. *)
Theorem Set_frame (key key' : string) (v : T) (opts : list CallOption)
  (w : World T) :
  key' <> key ->
  store (world_of (Set_ cfg key v opts w)) !! fullKey cfg key'
  = store w !! fullKey cfg key'.
Proof.
  intros Hne.
  assert (fullKey cfg key <> fullKey cfg key') as Hk.
  { intros H. apply fullKey_inj in H. congruence. }
  unfold_ops. crunch; try reflexivity.
  all: by rewrite lookup_insert_ne.
Qed.

(** What the hit path does, under any policy: it returns, it invokes no
    generator and writes nothing, and it starts at most one goroutine, the
    standard background refresh. *)
Lemma handleHitRefresh_effects (key : string) (d : Z) (gen : Generator T)
  (p : MissPolicy) (co : callOpts) (w : World T) :
  exists w' tr,
    handleHitRefresh cfg key d gen p co w = Ret tt w' tr /\
    gens tr = [] /\ writes tr = [] /\
    store w' = store w /\
    lastRefreshByKey w' = lastRefreshByKey w /\
    localLocks w' = localLocks w /\
    genCalls w' = genCalls w /\
    now w' = now w /\
    (spawned w' = spawned w \/
     spawned w' = spawned w ++ [GoBackgroundRefresh key d gen]).
Proof.
  unfold handleHitRefresh; destruct p; unfold_ops; crunch;
    eexists _, _; (split; [reflexivity |]);
    cbn [spawned set_spawned set_faults set_rng store lastRefreshByKey
         localLocks genCalls now];
    repeat split; eauto.
Qed.

(** X5. A hit is served from the cache under every policy, also an unknown
    one: when [Get] succeeds, [GetOrRefresh] returns that result with no
    error, without invoking the generator, taking a lock or writing to the
    backend or the ledger; at most it starts one background refresh.  With
    [WithoutBackgroundRefresh] it starts none and issues no backend
    command beyond the read. *)
Theorem GetOrRefresh_hit (key : string) (gen : Generator T)
  (opts : list CallOption) (w w1 : World T) (res : Result T)
  (tg : list Event) :
  Get cfg key w = Ret (res, None) w1 tg ->
  let co := applyOpts opts in
  exists w' tr,
    GetOrRefresh cfg key gen opts w = Ret (res, None) w' tr /\
    gens tr = [] /\ writes tr = [] /\
    store w' = store w /\
    lastRefreshByKey w' = lastRefreshByKey w /\
    localLocks w' = localLocks w /\
    genCalls w' = genCalls w /\
    (spawned w' = spawned w \/
     spawned w'
     = spawned w ++ [GoBackgroundRefresh key (effectiveTTL cfg co) gen]) /\
    (disableHitRefresh co = true ->
     spawned w' = spawned w /\ tr = [EvRdbGet (fullKey cfg key)]).
Proof.
  intros Hget co.
  destruct (Get_returns key w) as (r & Hg). rewrite Hg in Hget.
  injection Hget as -> <- <-.
  unfold GetOrRefresh. fold co. unfold bind at 1. rewrite Hg.
  cbn [snd fst]. unfold bind.
  destruct (disableHitRefresh co); cbn [negb].
  - unfold ret. eexists _, _. split; [reflexivity |].
    cbn [app store lastRefreshByKey localLocks genCalls spawned set_faults].
    repeat split; eauto.
  - destruct (handleHitRefresh_effects key (effectiveTTL cfg co) gen
                (effectiveMissPolicy cfg co) co
                (set_faults (tl (faults w)) w))
      as (w' & tr & Hh & Hgens & Hwr & Hst & Hled & Hlk & Hgc & Hnow & Hsp).
    rewrite Hh. unfold ret. eexists _, _. split; [reflexivity |].
    cbn [app] in *. rewrite app_nil_r.
    cbn [gens writes List.filter is_gen is_write].
    fold (gens tr). fold (writes tr). rewrite Hgens, Hwr.
    cbn [store lastRefreshByKey localLocks genCalls spawned set_faults] in *.
    repeat split; try done.
Qed.

(** X6. A first read that fails for another reason than absence ends the
    call under every policy, BestEffort included: a transport failure, or
    an entry that does not decode, is returned as an error with the zero
    value; no generator is invoked, nothing is written and no goroutine is
    started. *)
Theorem GetOrRefresh_read_error (key : string) (gen : Generator T)
  (opts : list CallOption) (w : World T) :
  let k := fullKey cfg key in
  let w' := set_faults (tl (faults w)) w in
  (fault_at 0 w = true ->
   GetOrRefresh cfg key gen opts w
   = Ret (zeroResult, Some (ErrWrap "redis get" ErrTransport)) w'
       [EvRdbGet k]) /\
  (forall e,
      fault_at 0 w = false ->
      lookup_live k w = Some e ->
      unmarshal (payload e) = None ->
      GetOrRefresh cfg key gen opts w
      = Ret (zeroResult, Some (ErrWrap "unmarshal" ErrUnmarshal)) w'
          [EvRdbGet k]).
Proof.
  intros k w'. subst k w'. split.
  - intros Hf. unfold fault_at in Hf. unfold_ops. symex. reflexivity.
  - intros e Hf Hl Hu. unfold fault_at, lookup_live in *.
    repeat case_match; simplify_eq. unfold_ops. symex. reflexivity.
Qed.

(** X7. A miss under FailFast returns the sentinel error after the one
    read: the generator is not invoked, nothing is written, no lock is
    taken and no goroutine is started.  A miss under a policy value the
    package does not define returns an error in the same way. *)
Theorem GetOrRefresh_miss_without_generation (key : string)
  (gen : Generator T) (opts : list CallOption) (w : World T) :
  fault_at 0 w = false ->
  lookup_live (fullKey cfg key) w = None ->
  let p := effectiveMissPolicy cfg (applyOpts opts) in
  let w' := set_faults (tl (faults w)) w in
  (p = MissPolicyFailFast ->
   GetOrRefresh cfg key gen opts w
   = Ret ({| Value := zero; FromCache := false; CachedAt := None |},
          Some ErrCacheMissFailFast) w' [EvRdbGet (fullKey cfg key)]) /\
  (forall n,
      p = MissPolicyUnknown n ->
      GetOrRefresh cfg key gen opts w
      = Ret (zeroResult, Some (ErrUnknownPolicy (MissPolicyUnknown n))) w'
          [EvRdbGet (fullKey cfg key)]).
Proof.
  intros Hf Hl p w'. subst p w'. unfold fault_at, lookup_live in *.
  split; [intros Hp | intros n Hp]; unfold GetOrRefresh; rewrite Hp;
    repeat case_match; simplify_eq; unfold_ops; symex; reflexivity.
Qed.

End ReadPath.

Section GeneratorFailure.

Context {T : Type} {C : Codec T}.
Variable cfg : handlerConfig.

(** Run a program along every path, with a generator known to fail. *)
Ltac crunch_failing H :=
  repeat first
    [ progress step_world
    | progress (rewrite ?tokens_ch, ?tokens_insert_eq, ?nth_tl,
                  ?effectiveTTL_WithTTL, ?H)
    | use_known
    | progress simplify_eq
    | case_inner ].

(** X8. A generator that fails never causes a write: under every policy,
    whatever the backend holds and answers, a [GetOrRefresh] whose
    generator fails writes nothing to the backend and leaves backend and
    ledger as they were; so do the background refresh, the stale refresh
    and the delayed refresh-ahead that run with such a generator. *)
Theorem failing_generator_never_writes (key : string) (gen : Generator T)
  (err : nat -> error) (opts : list CallOption) (d : Z) (th : Q)
  (w : World T) :
  (forall n, gen n = inr (err n)) ->
  (writes (trace_of (GetOrRefresh cfg key gen opts w)) = [] /\
   store (world_of (GetOrRefresh cfg key gen opts w)) = store w /\
   lastRefreshByKey (world_of (GetOrRefresh cfg key gen opts w))
   = lastRefreshByKey w) /\
  (forall t,
      t = GoBackgroundRefresh key d gen \/
      t = GoStaleRefresh key d gen \/
      t = GoScheduleRefreshAhead key d gen th ->
      writes (trace_of (run_task cfg t w)) = [] /\
      store (world_of (run_task cfg t w)) = store w /\
      lastRefreshByKey (world_of (run_task cfg t w)) = lastRefreshByKey w).
Proof.
  intros Hfail. split.
  - unfold GetOrRefresh. destruct (effectiveMissPolicy cfg (applyOpts opts));
      unfold_ops; unfold_ops; crunch_failing Hfail; done.
  - intros t [-> | [-> | ->]]; cbn [run_task]; unfold_ops; unfold_ops;
      crunch_failing Hfail; done.
Qed.

End GeneratorFailure.

Section LockDiscipline.

Context {T : Type} {C : Codec T}.
Variable cfg : handlerConfig.

Lemma tokens_insert_ne (k k' : string) (n : nat) (l : gmap string nat) :
  k <> k' -> keyedMutex.tokens k' (<[k := n]> l) = keyedMutex.tokens k' l.
Proof. intros H. unfold keyedMutex.tokens. by rewrite lookup_insert_ne. Qed.

(** Close a goal about the tokens of [k'] after the inserts of a run. *)
Ltac tokens_done :=
  cbn [localLocks set_localLocks set_faults set_store set_genCalls set_rng
       set_selects set_spawned set_now set_lastRefreshByKey tick];
  repeat match goal with
    | |- context [keyedMutex.tokens ?k' (<[?k := _]> _)] =>
        destruct (decide (k = k')) as [-> | ?];
        [ rewrite !tokens_insert_eq
        | rewrite !tokens_insert_ne by done ]
    | |- context [keyedMutex.tokens _ (keyedMutex.ch _ _)] =>
        rewrite !tokens_ch
    end;
  try congruence; try done.

(** X9. No operation returns, or parks, holding a lock: after every run
    of [Set], of [GetOrRefresh] under any policy, or of any background
    task, the lock of every key is as the run found it. *)
Theorem locks_restored (k' : string) (w : World T) :
  (forall key v opts,
      keyedMutex.tokens k' (localLocks (world_of (Set_ cfg key v opts w)))
      = keyedMutex.tokens k' (localLocks w)) /\
  (forall key (gen : Generator T) opts,
      keyedMutex.tokens k'
        (localLocks (world_of (GetOrRefresh cfg key gen opts w)))
      = keyedMutex.tokens k' (localLocks w)) /\
  (forall t : Task T,
      keyedMutex.tokens k' (localLocks (world_of (run_task cfg t w)))
      = keyedMutex.tokens k' (localLocks w)).
Proof.
  refine (conj _ (conj _ _)).
  - intros key v opts. unfold_ops. crunch; tokens_done.
  - intros key gen opts. unfold GetOrRefresh.
    destruct (effectiveMissPolicy cfg (applyOpts opts));
      unfold_ops; unfold_ops; crunch; tokens_done.
  - intros t. destruct t; cbn [run_task]; unfold_ops; unfold_ops; crunch;
      tokens_done.
Qed.

End LockDiscipline.

Section NeverPark.

Context {T : Type} {C : Codec T}.
Variable cfg : handlerConfig.

(** X10. The background refresh, the background miss write, the stale
    refresh, the delayed refresh-ahead and the recording of the creation
    stamp never park, whoever holds the key's lock: they use [TryLock] and
    give up when the lock is taken. *)
Theorem background_tasks_never_park (t : Task T) (w : World T) :
  (forall fk, t <> GoLockProbe fk) ->
  exists w' tr, run_task cfg t w = Ret tt w' tr.
Proof.
  intros Hne.
  destruct t as [? ? ? | ? ? ? | ? ? ? | ? ? ? ? | ? ? ? ? | fk];
    cbn [run_task]; try (by destruct (Hne fk));
    unfold_ops; unfold_ops; crunch; eexists _, _; reflexivity.
Qed.

(** X11. [GetOrRefresh] returns whenever the lock of its key is free, and
    under ReturnThenAsyncWrite, FailFast and BestEffort it returns
    whoever holds that lock, since these policies take none. *)
Theorem GetOrRefresh_returns (key : string) (gen : Generator T)
  (opts : list CallOption) (w : World T) :
  let p := effectiveMissPolicy cfg (applyOpts opts) in
  lock_free (fullKey cfg key) w = true \/
  p = MissPolicyReturnThenAsyncWrite \/
  p = MissPolicyFailFast \/
  p = MissPolicyBestEffort ->
  exists r w' tr, GetOrRefresh cfg key gen opts w = Ret r w' tr.
Proof.
  intros p. subst p. unfold lock_free. intros [Hfree | Hp].
  - apply Nat.eqb_eq in Hfree. unfold GetOrRefresh.
    destruct (effectiveMissPolicy cfg (applyOpts opts));
      unfold_ops; unfold_ops; crunch; try (eexists _, _, _; reflexivity).
    all: exfalso; congruence.
  - unfold GetOrRefresh.
    destruct Hp as [-> | [-> | ->]];
      unfold_ops; unfold_ops; crunch; eexists _, _, _; reflexivity.
Qed.

End NeverPark.

(** *** More on the keyed mutex *)

Section KeyedMutexMore.

Import keyedMutex.

Lemma holders_pos (key : string) (ps : list pc) :
  (0 < holders key ps)%nat -> exists j, ps !! j = Some (Critical key).
Proof.
  induction ps as [| p ps IH]; [rewrite holders_nil; lia |].
  rewrite holders_cons. unfold weight.
  destruct (decide (p = Critical key)) as [-> | Hp].
  - intros _. by exists 0%nat.
  - intros H. destruct IH as [j Hj]; [lia |]. by exists (S j).
Qed.

(** X12. The keyed mutex alone never deadlocks: in every reachable state,
    a goroutine waiting in [Lock] for a key can either take the lock at
    once, or some goroutine is inside that key's critical section and its
    releaser can run. *)
Theorem keyedMutex_progress (s : sys) (i : nat) (key : string) :
  reachable s ->
  procs s !! i = Some (AtLock key) ->
  (exists l', send key (locks s) = Some l') \/
  (exists j l', procs s !! j = Some (Critical key) /\
                recv key (locks s) = Some l').
Proof.
  intros Hr Hi. destruct (balanced_reachable s Hr key) as [Hh Ht].
  destruct (send key (locks s)) as [l' |] eqn:Hs; [left; by exists l' |].
  right. apply send_None in Hs.
  destruct (holders_pos key (procs s)) as [j Hj]; [lia |].
  exists j. unfold recv.
  destruct (tokens key (locks s)) as [| n] eqn:E; [lia |].
  by eexists.
Qed.

Lemma ch_lookup_mono (key k : string) (l : gmap string nat) :
  is_Some (l !! k) -> is_Some (ch key l !! k).
Proof.
  intros H. unfold ch. destruct (l !! key) eqn:E; [done |].
  destruct (decide (key = k)) as [-> | Hne].
  - rewrite E in H. by destruct H.
  - by rewrite lookup_insert_ne.
Qed.

Lemma insert_lookup_mono (key k : string) (n : nat) (l : gmap string nat) :
  is_Some (l !! k) -> is_Some (<[key := n]> l !! k).
Proof.
  intros H. destruct (decide (key = k)) as [-> | Hne].
  - rewrite lookup_insert_eq. by eexists.
  - by rewrite lookup_insert_ne.
Qed.

(** X13. The lock table only grows: no step of any goroutine removes the
    channel of a key, and a goroutine that has asked for a key finds its
    channel in the table from then on. *)
Theorem keyedMutex_table_grows (s s' : sys) (k : string) :
  step s s' ->
  (is_Some (locks s !! k) -> is_Some (locks s' !! k)) /\
  (forall i, procs s' !! i = Some (AtLock k) \/
             procs s' !! i = Some (AtTryLock k) ->
             procs s !! i = Some Idle ->
             is_Some (locks s' !! k)).
Proof.
  intros Hs.
  destruct Hs as [| i key Hi | i key l' Hi Hsend | i key Hi
                  | i key l' Hi Hsend | i key Hi Hsend | i key l' Hi Hrecv];
    cbn [locks procs]; split; try done.
  all: try (by apply ch_lookup_mono).
  all: try (unfold send in Hsend; case_match; simplify_eq;
            by apply insert_lookup_mono).
  all: try (unfold recv in Hrecv; case_match; simplify_eq;
            by apply insert_lookup_mono).
  all: intros j Hj Hidle.
  all: try (destruct (decide (i = j)) as [-> | Hne];
            [ rewrite list_lookup_insert_eq in Hj
                by (by eapply lookup_lt_Some);
              destruct Hj as [Hj | Hj]; simplify_eq
            | rewrite list_lookup_insert_ne in Hj by done;
              destruct Hj; congruence ]).
  all: try (unfold ch; destruct (locks s !! k) eqn:E;
            [by rewrite E | by rewrite lookup_insert_eq]).
  - pose proof (lookup_lt_Some _ _ _ Hidle) as Hlt.
    rewrite lookup_app_l in Hj by done. destruct Hj; congruence.
Qed.

End KeyedMutexMore.

Section LockApi.

Context {T : Type}.

(** X14. On a free key [Lock] and [TryLock] both take the lock; from then
    on [Lock] parks and [TryLock] fails without changing any lock, its
    releaser being a no-op.  Running the releaser once frees the key, so
    that a later [Lock] succeeds; running it a second time parks, since it
    waits for a token that nobody has sent. *)
Theorem lock_then_release (key : string) (w : World T) :
  lock_free key w = true ->
  exists w1 w2 w3,
    Lock key w = Ret (releaser key) w1 [EvLock key] /\
    TryLock key w = Ret (releaser key, true) w1 [EvTryLock key true] /\
    lock_free key w1 = false /\
    value_of (Lock key w1) = None /\
    TryLock key w1 = Ret (ret tt, false) w1 [EvTryLock key false] /\
    releaser key w1 = Ret tt w2 [EvUnlock key] /\
    lock_free key w2 = true /\
    Lock key w2 = Ret (releaser key) w3 [EvLock key] /\
    releaser key w2 = Block w2 [].
Proof.
  unfold lock_free. intros H. apply Nat.eqb_eq in H.
  assert (H0 : Lock key w = Ret (releaser key) (world_of (Lock key w)) [EvLock key]).
  { unfold Lock, keyedMutex.send, keyedMutex.capacity.
    by rewrite !tokens_ch, !H. }
  set (w1 := world_of (Lock key w)) in *.
  assert (H1 : keyedMutex.tokens key (localLocks w1) = 1%nat).
  { subst w1. unfold Lock, keyedMutex.send, keyedMutex.capacity.
    rewrite !tokens_ch, !H. cbn. by rewrite tokens_insert_eq. }
  assert (H2 : releaser key w1
               = Ret tt (world_of (releaser key w1)) [EvUnlock key]).
  { unfold releaser, keyedMutex.recv. by rewrite H1. }
  set (w2 := world_of (releaser key w1)) in *.
  assert (H3 : keyedMutex.tokens key (localLocks w2) = 0%nat).
  { subst w2. unfold releaser, keyedMutex.recv. rewrite H1. cbn.
    by rewrite tokens_insert_eq. }
  exists w1, w2, (world_of (Lock key w2)).
  split; [exact H0 |]. split.
  { subst w1. unfold TryLock, Lock, keyedMutex.send, keyedMutex.capacity.
    by rewrite !tokens_ch, !H. }
  split; [by rewrite H1 |]. split.
  { unfold Lock, keyedMutex.send, keyedMutex.capacity.
    by rewrite !tokens_ch, !H1. }
  split.
  { unfold TryLock, keyedMutex.send, keyedMutex.capacity.
    rewrite !tokens_ch, !H1. cbn. f_equal.
    assert (Hch : keyedMutex.ch key (localLocks w1) = localLocks w1).
    { unfold keyedMutex.ch. unfold keyedMutex.tokens in H1.
      by destruct (localLocks w1 !! key). }
    rewrite Hch. by destruct w1. }
  split; [exact H2 |]. split; [by rewrite H3 |]. split.
  { unfold Lock, keyedMutex.send, keyedMutex.capacity.
    by rewrite !tokens_ch, !H3. }
  unfold releaser, keyedMutex.recv. by rewrite H3.
Qed.

End LockApi.

(** The range that the validating options keep the tunables in. *)
Lemma exported_Option_range (o : Option_) (c : handlerConfig) :
  exported_Option o ->
  (0 <= defaultRefreshAheadThreshold c <= 1)%Q /\
  (0 < defaultProbabilisticBeta c)%Q ->
  (0 <= defaultRefreshAheadThreshold (o c) <= 1)%Q /\
  (0 < defaultProbabilisticBeta (o c))%Q.
Proof.
  intros Ho Hc. destruct Ho; try exact Hc.
  - unfold WithDefaultRefreshAheadThreshold.
    destruct (Qle_bool 0 q && Qle_bool q 1) eqn:E; [| exact Hc].
    apply andb_prop in E as [E1 E2].
    apply Qle_bool_iff in E1, E2. cbn. tauto.
  - unfold WithDefaultProbabilisticBeta.
    destruct (Qltb 0 q) eqn:E; [| exact Hc].
    apply Qltb_true in E. cbn. tauto.
Qed.

Lemma exported_CallOption_range (o : CallOption) (c : callOpts) :
  exported_CallOption o ->
  (0 <= refreshAheadThreshold c <= 1)%Q /\
  (0 <= probabilisticRefreshBeta c)%Q ->
  (0 <= refreshAheadThreshold (o c) <= 1)%Q /\
  (0 <= probabilisticRefreshBeta (o c))%Q.
Proof.
  intros Ho Hc. destruct Ho; try exact Hc.
  - unfold WithRefreshAheadThreshold.
    destruct (Qle_bool 0 q && Qle_bool q 1) eqn:E; [| exact Hc].
    apply andb_prop in E as [E1 E2].
    apply Qle_bool_iff in E1, E2. cbn. tauto.
  - unfold WithProbabilisticBeta.
    destruct (Qltb 0 q) eqn:E; [| exact Hc].
    apply Qltb_true in E. cbn. split; [tauto | by apply Qlt_le_weak].
Qed.

(** X15. Whatever exported options a handler is built from and a call is
    made with, in whatever order and with whatever arguments, the
    refresh-ahead threshold that the call works with lies in [0, 1] and its
    probabilistic beta is positive: out-of-range arguments are dropped by
    the options, and zero call-level values fall back to the handler's. *)
Theorem options_validated (opts : list Option_) (copts : list CallOption) :
  Forall exported_Option opts ->
  Forall exported_CallOption copts ->
  let cfg := New opts in
  let co := applyOpts copts in
  (0 <= defaultRefreshAheadThreshold cfg <= 1)%Q /\
  (0 < defaultProbabilisticBeta cfg)%Q /\
  (0 <= effectiveThreshold cfg co <= 1)%Q /\
  (0 < effectiveBeta cfg co)%Q.
Proof.
  intros Ho Hc cfg co.
  assert (Hcfg : (0 <= defaultRefreshAheadThreshold cfg <= 1)%Q /\
                 (0 < defaultProbabilisticBeta cfg)%Q).
  { subst cfg. unfold New.
    assert (Hn : (0 <= defaultRefreshAheadThreshold newConfig <= 1)%Q /\
                 (0 < defaultProbabilisticBeta newConfig)%Q)
      by (cbn; repeat split; discriminate || reflexivity).
    revert Hn. generalize newConfig.
    induction Ho as [| o os Hx _ IH]; intros c Hn; [exact Hn |].
    cbn. apply IH. by apply exported_Option_range. }
  assert (Hco : (0 <= refreshAheadThreshold co <= 1)%Q /\
                (0 <= probabilisticRefreshBeta co)%Q).
  { subst co. unfold applyOpts.
    assert (Hn : (0 <= refreshAheadThreshold zeroCallOpts <= 1)%Q /\
                 (0 <= probabilisticRefreshBeta zeroCallOpts)%Q)
      by (cbn; repeat split; discriminate).
    revert Hn. generalize zeroCallOpts.
    induction Hc as [| o os Hx _ IH]; intros c Hn; [exact Hn |].
    cbn. apply IH. by apply exported_CallOption_range. }
  destruct Hcfg as [Hth Hb]. destruct Hco as [Hth' Hb'].
  split; [exact Hth |]. split; [exact Hb |].
  unfold effectiveThreshold, effectiveBeta. split.
  - destruct (Qle_bool (refreshAheadThreshold co) 0); assumption.
  - destruct (Qle_bool (probabilisticRefreshBeta co) 0) eqn:E; [exact Hb |].
    apply Qnot_le_lt. intros Hle. apply Qle_bool_iff in Hle. congruence.
Qed.

Lemma options_validated_witness :
  let cfg := New [WithDefaultRefreshAheadThreshold 2; WithPrefix "t";
                  WithDefaultProbabilisticBeta (-1)] in
  let co := applyOpts [WithRefreshAheadThreshold (1 # 2);
                       WithProbabilisticBeta 0] in
  (0 <= defaultRefreshAheadThreshold cfg <= 1)%Q /\
  (0 < defaultProbabilisticBeta cfg)%Q /\
  (0 <= effectiveThreshold cfg co <= 1)%Q /\
  (0 < effectiveBeta cfg co)%Q.
Proof.
  apply (options_validated
           [WithDefaultRefreshAheadThreshold 2; WithPrefix "t";
            WithDefaultProbabilisticBeta (-1)]
           [WithRefreshAheadThreshold (1 # 2); WithProbabilisticBeta 0]).
  - repeat constructor.
  - repeat constructor.
Defined.

Section CreatedStamp.

Context {T : Type} {C : Codec T}.
Variable cfg : handlerConfig.

Lemma fullKey_append (key s : string) :
  fullKey cfg (key +:+ s) = fullKey cfg key +:+ s.
Proof.
  unfold fullKey. destruct (String.eqb (prefix cfg) ""); [reflexivity |].
  symmetry. apply string_append_assoc.
Qed.

Lemma Set_ok_ledger (key : string) (v : T) (opts : list CallOption)
  (w w1 : World T) (tr : list Event) :
  Set_ cfg key v opts w = Ret None w1 tr ->
  now w1 = now w /\ rng w1 = rng w /\
  lastRefreshByKey w1
  = if refreshCooldown cfg <=? 0 then lastRefreshByKey w
    else <[fullKey cfg key := now w]> (lastRefreshByKey w).
Proof.
  revert w1 tr. unfold_ops. intros w1 tr. crunch; intros H; simplify_eq;
    repeat split; reflexivity.
Qed.

(** X16. The ledger slot in which the probabilistic policy keeps the
    creation time of [k] is the ledger slot of the user key
    [k ++ "@created"].  So with a positive cooldown a successful
    [Set(k ++ "@created", v)] stamps [k]: from then on
    [shouldProbabilisticRefresh(k)] draws a random number and compares it
    with the age since that [Set], although [enableProbabilisticRefresh]
    never ran for [k]. *)
Theorem created_stamp_aliasing (key : string) (v : T)
  (opts : list CallOption) (w w1 : World T) (tr : list Event)
  (ttl : Z) (beta : Q) (d : Z) :
  0 < refreshCooldown cfg ->
  Set_ cfg (key +:+ "@created") v opts w = Ret None w1 tr ->
  lastRefreshByKey w1 !! (fullKey cfg key +:+ "@created") = Some (now w) /\
  shouldProbabilisticRefresh cfg key ttl beta (tick d w1)
  = Ret (Float.lt (Fin (hd 0%Q (rng w)))
           (Float.mul
              (Float.div (Float.ofInt (Time.Since (now w + d) (now w)))
                 (Float.ofInt ttl))
              (Fin beta)))
      (set_rng (tl (rng w)) (tick d w1)) [].
Proof.
  intros Hcd Hset. apply Set_ok_ledger in Hset as (Hnow & Hrng & Hled).
  apply Z.leb_gt in Hcd. rewrite Hcd, fullKey_append in Hled.
  assert (Hlk : lastRefreshByKey w1 !! (fullKey cfg key +:+ "@created")
                = Some (now w)) by (by rewrite Hled, lookup_insert_eq).
  split; [exact Hlk |].
  unfold shouldProbabilisticRefresh, tick, rand_Float64, bind, ret.
  cbn [lastRefreshByKey set_now now rng]. rewrite Hlk, Hnow, Hrng.
  reflexivity.
Qed.

End CreatedStamp.

Lemma created_stamp_aliasing_witness :
  let w := emptyWorld bool 100 in
  let w1 := world_of (Set_ cfgT "a@created" true [] w) in
  lastRefreshByKey w1 !! (fullKey cfgT "a" +:+ "@created") = Some 100 /\
  value_of (shouldProbabilisticRefresh cfgT "a" 60 1 (tick 30 w1))
  = Some true.
Proof.
  intros w w1.
  destruct (created_stamp_aliasing cfgT "a" true [] w w1
              (trace_of (Set_ cfgT "a@created" true [] w)) 60 1 30)
    as [H1 H2].
  - reflexivity.
  - reflexivity.
  - split; [exact H1 |]. rewrite H2. reflexivity.
Defined.

Section StoreFrame.

Context {T : Type} {C : Codec T}.
Variable cfg : handlerConfig.

(** Close a goal about the entry of [k'] after the inserts of a run. *)
Ltac lookup_done :=
  cbn [store set_localLocks set_faults set_store set_genCalls set_rng
       set_selects set_spawned set_now set_lastRefreshByKey tick];
  rewrite ?lookup_insert_ne by done; try done.

(** X17. Every operation on [key] writes to the backend entry of [key]
    only, the stale refresh also to its stale companion: the entry of any
    other backend key is the same after a [GetOrRefresh] on [key] under any
    policy, and after any background task for [key]. *)
Theorem store_frame (key k' : string) (w : World T) :
  k' <> fullKey cfg key ->
  (forall (gen : Generator T) opts,
      store (world_of (GetOrRefresh cfg key gen opts w)) !! k'
      = store w !! k') /\
  (forall t d v gen th beta fk,
      t = GoBackgroundMissWrite key d v \/
      t = GoBackgroundRefresh key d gen \/
      t = GoScheduleRefreshAhead key d gen th \/
      t = GoEnableProbabilisticRefresh key d gen beta \/
      t = GoLockProbe fk \/
      (t = GoStaleRefresh key d gen /\
       k' <> fullKey cfg (key +:+ ":stale")) ->
      store (world_of (run_task cfg t w)) !! k' = store w !! k').
Proof.
  intros Hne. apply not_eq_sym in Hne. split.
  - intros gen opts. unfold GetOrRefresh.
    destruct (effectiveMissPolicy cfg (applyOpts opts));
      unfold_ops; unfold_ops; crunch; lookup_done.
  - intros t d v gen th beta fk Ht.
    destruct Ht as [-> | [-> | [-> | [-> | [-> | [-> Hs]]]]]];
      try apply not_eq_sym in Hs;
      cbn [run_task]; unfold_ops; unfold_ops; crunch; lookup_done.
Qed.

(** X18. What the stale refresh writes.  When the lock of the key is taken
    it does nothing.  Otherwise it invokes the generator once and, the
    generator having returned [v], attempts both writes whatever the first
    one yields: when the backend accepts both, the key holds [v] for the
    TTL of the call and the stale companion holds [v] for the handler's
    [staleDataTTL]; when the backend refuses the first, the stale
    companion alone is written. *)
Theorem spawnStaleRefresh_outcome (key : string) (ttl : Z)
  (gen : Generator T) (v : T) (b : bytes) (w : World T) :
  let k := fullKey cfg key in
  let sk := fullKey cfg (key +:+ ":stale") in
  let eff := if ttl <=? 0 then defaultTTL cfg else ttl in
  let main := {| payload := b;
                 expiry := if 0 <? eff then Some (now w + eff) else None |} in
  let stale := {| payload := b;
                  expiry := if 0 <? staleDataTTL cfg
                            then Some (now w + staleDataTTL cfg)
                            else None |} in
  let o := spawnStaleRefresh cfg key ttl gen w in
  gen (genCalls w) = inl v ->
  marshal v = Some b ->
  (lock_free k w = false ->
   store (world_of o) = store w /\ genCalls (world_of o) = genCalls w /\
   trace_of o = [EvTryLock k false]) /\
  (lock_free k w = true ->
   genCalls (world_of o) = S (genCalls w) /\
   (fault_at 0 w = false -> fault_at 1 w = false ->
    store (world_of o) = <[sk := stale]> (<[k := main]> (store w))) /\
   (fault_at 0 w = true -> fault_at 1 w = false ->
    store (world_of o) = <[sk := stale]> (store w)) /\
   (fault_at 0 w = false -> fault_at 1 w = true ->
    store (world_of o) = <[k := main]> (store w))).
Proof.
  intros k sk eff main stale o Hgen Hm. subst k sk eff main stale o.
  unfold lock_free. split; intros Hfree.
  - destruct (keyedMutex.tokens (fullKey cfg key) (localLocks w)) eqn:Htok;
      [done |].
    clear Hfree. unfold_ops. unfold_ops. crunch; done.
  - apply Nat.eqb_eq in Hfree. unfold fault_at.
    refine (conj _ (conj _ (conj _ _))); [| intros H0 H1 ..];
      unfold_ops; unfold_ops; crunch; try done; try lia.
Qed.

End StoreFrame.

Lemma store_frame_witness :
  store (world_of (GetOrRefresh cfgT "a" (constGen true) []
                     (emptyWorld bool 0))) !! "t:b"
  = store (emptyWorld bool 0) !! "t:b".
Proof.
  apply (store_frame cfgT "a" "t:b" (emptyWorld bool 0)). discriminate.
Defined.

Lemma spawnStaleRefresh_outcome_witness :
  store (world_of runStale)
  = <[ "t:d:stale" :=
         {| payload := bytes_true;
            expiry := Some (100 + 24 * 3600 * Time.Second) |} ]>
      (<[ "t:d" := {| payload := bytes_true;
                      expiry := Some (100 + 60 * Time.Second) |} ]> ∅).
Proof.
  destruct (spawnStaleRefresh_outcome cfgT "d" (60 * Time.Second)
              (constGen true) true bytes_true (emptyWorld bool 100))
    as [_ H]; [reflexivity | reflexivity |].
  destruct H as (_ & H2 & _); [reflexivity |].
  apply H2; reflexivity.
Defined.

Section AsyncWrite.

Context {T : Type} {C : Codec T}.
Variable cfg : handlerConfig.

(** X19. The background write after a miss never replaces an entry: when
    the lock of the key is taken, when the existence check fails, or when
    the key is present again, it leaves backend and ledger as they were and
    sends no write to the backend; it never invokes a generator. *)
Theorem backgroundMissWrite_skips (key : string) (ttl : Z) (v : T)
  (w : World T) :
  let k := fullKey cfg key in
  let o := spawnBackgroundMissWrite cfg key ttl v w in
  lock_free k w = false \/ fault_at 0 w = true \/ lookup_live k w <> None ->
  store (world_of o) = store w /\
  lastRefreshByKey (world_of o) = lastRefreshByKey w /\
  writes (trace_of o) = [] /\
  genCalls (world_of o) = genCalls w.
Proof.
  intros k o H. subst k o. unfold lock_free, fault_at in H.
  destruct H as [H | [H | H]].
  - destruct (keyedMutex.tokens (fullKey cfg key) (localLocks w)) eqn:Htok;
      [done |].
    clear H. unfold_ops. crunch; done.
  - unfold_ops. crunch; done.
  - destruct (lookup_live (fullKey cfg key) w) eqn:Hl; [| done]. clear H.
    unfold lookup_live in Hl.
    unfold_ops. crunch; done.
Qed.

(** X20. Under ReturnThenAsyncWrite a miss whose generator returns [v]
    answers with [v] before anything is cached: when the call returns the
    backend is as it was and one background write is queued.  Once that
    goroutine has run, with the key unlocked and the backend answering, the
    key holds [v] for the TTL of the call. *)
Theorem returnThenAsyncWrite_roundtrip (key : string) (gen : Generator T)
  (opts : list CallOption) (v : T) (b : bytes) (w : World T) :
  let k := fullKey cfg key in
  let eff := effectiveTTL cfg (applyOpts opts) in
  let o := GetOrRefresh cfg key gen opts w in
  let o' := run_spawned cfg (world_of o) in
  effectiveMissPolicy cfg (applyOpts opts) = MissPolicyReturnThenAsyncWrite ->
  fault_at 0 w = false ->
  lookup_live k w = None ->
  gen (genCalls w) = inl v ->
  marshal v = Some b ->
  spawned w = [] ->
  value_of o
  = Some ({| Value := v; FromCache := false; CachedAt := Some (now w) |},
          None) /\
  store (world_of o) = store w /\
  spawned (world_of o) = [GoBackgroundMissWrite key eff v] /\
  (lock_free k w = true ->
   fault_at 1 w = false ->
   fault_at 2 w = false ->
   store (world_of o')
   = <[k := {| payload := b;
               expiry := if 0 <? eff then Some (now w + eff) else None |}]>
       (store w) /\
   spawned (world_of o') = [] /\
   trace_of o'
   = [EvTryLock k true; EvRdbExists k; EvMarshal true;
      EvRdbSet k b eff true; EvSetLastRefresh k; EvUnlock k]).
Proof.
  intros k eff o o' Hp Hf0 Hl Hgen Hm Hsp. subst k eff o o'.
  unfold GetOrRefresh, run_spawned. rewrite Hp.
  unfold fault_at, lookup_live in *.
  refine (conj _ (conj _ (conj _ _))).
  - unfold_ops. crunch; done.
  - unfold_ops. crunch; done.
  - unfold_ops. crunch; done.
  - unfold lock_free. intros Hfree H1 H2. apply Nat.eqb_eq in Hfree.
    destruct (effectiveTTL_cases cfg (applyOpts opts)) as [Hpos | [Hle Heq]];
      [| rewrite Heq in *].
    all: unfold_ops; unfold_ops; crunch; try done.
    all: cbn [run_task]; unfold_ops; unfold_ops; crunch; try done.
    all: arith_facts; lia.
Qed.

End AsyncWrite.

Lemma backgroundMissWrite_skips_witness :
  let o := spawnBackgroundMissWrite cfgT "e" 5 false (worldAfterSet cfgT) in
  store (world_of o) = store (worldAfterSet cfgT) /\
  lastRefreshByKey (world_of o) = lastRefreshByKey (worldAfterSet cfgT) /\
  writes (trace_of o) = [] /\
  genCalls (world_of o) = genCalls (worldAfterSet cfgT).
Proof.
  apply (backgroundMissWrite_skips cfgT "e" 5 false (worldAfterSet cfgT)).
  right; right. discriminate.
Defined.

Lemma returnThenAsyncWrite_roundtrip_witness :
  let opts := [WithCallMissPolicy MissPolicyReturnThenAsyncWrite] in
  let o := GetOrRefresh cfgT "a" (constGen true) opts (emptyWorld bool 7) in
  value_of o
  = Some ({| Value := true; FromCache := false; CachedAt := Some 7 |}, None) /\
  store (world_of o) = ∅ /\
  store (world_of (run_spawned cfgT (world_of o)))
  = {[ "t:a" := {| payload := bytes_true;
                   expiry := Some (7 + 5 * 60 * Time.Second) |} ]}.
Proof.
  intros opts o.
  destruct (returnThenAsyncWrite_roundtrip cfgT "a" (constGen true) opts
              true bytes_true (emptyWorld bool 7))
    as (H1 & H2 & _ & H4); try reflexivity.
  destruct H4 as (H5 & _); try reflexivity.
  split; [exact H1 |]. split; [exact H2 |]. exact H5.
Defined.

Section RefreshCooldown.

Context {T : Type} {C : Codec T}.
Variable cfg : handlerConfig.

(** X21. The background refresh invokes the generator at most once, and
    exactly when it gets the lock of the key and the cooldown allows a
    refresh: the cooldown is off, the ledger has no entry for the key, or
    the entry is at least one cooldown old.  When it does not invoke the
    generator it writes nothing. *)
Theorem backgroundRefresh_invokes_generator (key : string) (ttl : Z)
  (gen : Generator T) (w : World T) :
  let k := fullKey cfg key in
  let o := spawnBackgroundRefresh cfg key ttl gen w in
  (genCalls (world_of o) = S (genCalls w) <->
   lock_free k w = true /\
   (refreshCooldown cfg <= 0 \/
    lastRefreshByKey w !! k = None \/
    exists last, lastRefreshByKey w !! k = Some last /\
                 refreshCooldown cfg <= Time.Since (now w) last)) /\
  (genCalls (world_of o) <> S (genCalls w) ->
   genCalls (world_of o) = genCalls w /\
   store (world_of o) = store w /\
   lastRefreshByKey (world_of o) = lastRefreshByKey w /\
   writes (trace_of o) = []).
Proof.
  intros k o. subst k o. unfold lock_free.
  destruct (keyedMutex.tokens (fullKey cfg key) (localLocks w)) eqn:Htok.
  - destruct (refreshCooldown cfg <=? 0) eqn:Hcd.
    + apply Z.leb_le in Hcd. split.
      * split; [intros _; split; [done | by left] |].
        intros _. apply Z.leb_le in Hcd. unfold_ops. crunch; done.
      * apply Z.leb_le in Hcd. unfold_ops. crunch; done.
    + destruct (lastRefreshByKey w !! fullKey cfg key) as [last |] eqn:Hl.
      * destruct (refreshCooldown cfg <=? Time.Since (now w) last) eqn:Hs.
        -- split.
           ++ split; [intros _; split; [done |] |].
              { right; right. exists last. split; [done |].
                by apply Z.leb_le. }
              intros _. unfold_ops. crunch; done.
           ++ unfold_ops. crunch; done.
        -- split.
           ++ split.
              { unfold_ops. crunch; try done; lia. }
              intros [_ [H | [H | (l & H & H')]]].
              ** apply Z.leb_gt in Hcd. lia.
              ** done.
              ** simplify_eq. apply Z.leb_gt in Hs. lia.
           ++ intros _. unfold_ops. crunch; done.
      * split.
        -- split; [intros _; split; [done | by right; left] |].
           intros _. unfold_ops. crunch; done.
        -- unfold_ops. crunch; done.
  - split.
    + split; [| by intros [? _]].
      unfold_ops. crunch; try done; lia.
    + intros _. unfold_ops. crunch; done.
Qed.

Lemma Since_elapsed (t d : Z) : 0 <= d -> Time.Since (t + d) t <= d.
Proof.
  intros Hd. unfold Time.Since, Time.Sub, Time.maxDuration, Time.minDuration.
  replace (t + d - t) with d by lia.
  destruct (2 ^ 63 - 1 <? d) eqn:E1; [apply Z.ltb_lt in E1; lia |].
  destruct (d <? - 2 ^ 63) eqn:E2; [apply Z.ltb_lt in E2; lia | lia].
Qed.

(** X22. A successful [Set] throttles the refreshes of its key: with a
    positive cooldown, for less than one cooldown after the [Set] a hit
    under a policy with the standard hit refresh starts no goroutine, and
    a background refresh that runs all the same neither invokes the
    generator nor writes. *)
Theorem Set_throttles_refresh (key : string) (v : T)
  (opts : list CallOption) (w w1 : World T) (tr : list Event)
  (d ttl : Z) (gen : Generator T) (p : MissPolicy) (co : callOpts) :
  0 < refreshCooldown cfg ->
  Set_ cfg key v opts w = Ret None w1 tr ->
  0 <= d < refreshCooldown cfg ->
  p <> MissPolicyRefreshAhead ->
  p <> MissPolicyProbabilisticRefresh ->
  spawned (world_of (handleHitRefresh cfg key ttl gen p co (tick d w1)))
  = spawned w1 /\
  genCalls (world_of (spawnBackgroundRefresh cfg key ttl gen (tick d w1)))
  = genCalls w1 /\
  store (world_of (spawnBackgroundRefresh cfg key ttl gen (tick d w1)))
  = store w1.
Proof.
  intros Hcd Hset Hd Hp1 Hp2.
  apply Set_ok_ledger in Hset as (Hnow & _ & Hled).
  pose proof (Since_elapsed (now w) d (proj1 Hd)) as Hs.
  assert (Hlk : lastRefreshByKey w1 !! fullKey cfg key = Some (now w)).
  { destruct (refreshCooldown cfg <=? 0) eqn:E;
      [apply Z.leb_le in E; lia |].
    by rewrite Hled, lookup_insert_eq. }
  assert (Hcd' : (refreshCooldown cfg <=? 0) = false) by (apply Z.leb_gt; lia).
  assert (Hs' : (refreshCooldown cfg <=? Time.Since (now w + d) (now w))
                = false) by (apply Z.leb_gt; lia).
  clear Hled Hs Hd Hcd.
  refine (conj _ (conj _ _)).
  - destruct p; try done; unfold tick; unfold_ops; crunch; done.
  - unfold tick; unfold_ops; crunch; done.
  - unfold tick; unfold_ops; crunch; done.
Qed.

End RefreshCooldown.

Lemma Set_throttles_refresh_witness :
  let w1 := world_of (Set_ cfgT "a" true [] (emptyWorld bool 0)) in
  spawned (world_of (handleHitRefresh cfgT "a" 60 (constGen false)
                       MissPolicySyncWriteThenReturn zeroCallOpts
                       (tick Time.Second w1)))
  = [] /\
  genCalls (world_of (spawnBackgroundRefresh cfgT "a" 60 (constGen false)
                        (tick Time.Second w1)))
  = 0%nat /\
  store (world_of (spawnBackgroundRefresh cfgT "a" 60 (constGen false)
                     (tick Time.Second w1)))
  = store w1.
Proof.
  intros w1.
  apply (Set_throttles_refresh cfgT "a" true [] (emptyWorld bool 0) w1
           (trace_of (Set_ cfgT "a" true [] (emptyWorld bool 0)))
           Time.Second 60 (constGen false) MissPolicySyncWriteThenReturn
           zeroCallOpts).
  - reflexivity.
  - reflexivity.
  - split; [discriminate | reflexivity].
  - discriminate.
  - discriminate.
Defined.

Section RefreshAhead.

Context {T : Type} {C : Codec T}.
Variable cfg : handlerConfig.



End RefreshAhead.


Section Expiry.

Context {T : Type} {C : Codec T}.
Variable cfg : handlerConfig.


End Expiry.


Section SecondCall.

Context {T : Type} {C : Codec T}.
Variable cfg : handlerConfig.

(** X26. What the cache is for.  Under the default policy, for a
    JSON-representable value type and a backend that answers: a
    [GetOrRefresh] that misses invokes the generator, stores its value [v]
    and returns it with [FromCache = false]; the next [GetOrRefresh] of the
    key within the TTL returns [v] with [FromCache = true] without invoking
    the generator and without writing. *)
Theorem second_call_served_from_cache (key : string) (gen : Generator T)
  (opts : list CallOption) (v : T) (b : bytes) (w : World T) (d : Z) :
  let k := fullKey cfg key in
  let eff := effectiveTTL cfg (applyOpts opts) in
  let o1 := GetOrRefresh cfg key gen opts w in
  let o2 := GetOrRefresh cfg key gen opts (tick d (world_of o1)) in
  representable C ->
  effectiveMissPolicy cfg (applyOpts opts) = MissPolicySyncWriteThenReturn ->
  lock_free k w = true ->
  (forall n, (n < 4)%nat -> fault_at n w = false) ->
  lookup_live k w = None ->
  gen (genCalls w) = inl v ->
  marshal v = Some b ->
  (0 < eff -> d < eff) ->
  value_of o1
  = Some ({| Value := v; FromCache := false; CachedAt := Some (now w) |},
          None) /\
  value_of o2
  = Some ({| Value := v; FromCache := true; CachedAt := Some (now w + d) |},
          None) /\
  genCalls (world_of o2) = S (genCalls w) /\
  store (world_of o2) = store (world_of o1) /\
  writes (trace_of o2) = [].
Proof.
  intros k eff o1 o2 Hrep Hp Hfree Hf Hl Hgen Hm Hd.
  pose proof (Hf 0%nat ltac:(lia)) as Hf0.
  pose proof (Hf 1%nat ltac:(lia)) as Hf1.
  pose proof (Hf 2%nat ltac:(lia)) as Hf2.
  pose proof (Hf 3%nat ltac:(lia)) as Hf3.
  clear Hf. unfold fault_at, lock_free in *. apply Nat.eqb_eq in Hfree.
  pose proof (Hrep v b Hm) as Hun.
  set (entry := {| payload := b;
                   expiry := if 0 <? eff then Some (now w + eff)
                             else None |}).
  assert (H1 : exists w1 tr1,
             o1 = Ret ({| Value := v; FromCache := false;
                          CachedAt := Some (now w) |}, None) w1 tr1 /\
             store w1 = <[k := entry]> (store w) /\
             now w1 = now w /\
             faults w1 = tl (tl (tl (faults w))) /\
             genCalls w1 = S (genCalls w)).
  { subst o1 k entry. unfold GetOrRefresh. rewrite Hp.
    unfold lookup_live in Hl. clear Hf3 Hd o2.
    destruct (effectiveTTL_cases cfg (applyOpts opts)) as [Hpos | [Hle Heq]];
      [| subst eff; rewrite Heq in *].
    all: unfold_ops; unfold_ops; crunch;
      try (eexists _, _; split; [reflexivity |]; cbn; done).
    all: arith_facts; lia. }
  destruct H1 as (w1 & tr1 & E1 & Hst & Hnow & Hfl & Hgc).
  assert (Hlk : store w1 !! k = Some entry)
    by (by rewrite Hst, lookup_insert_eq).
  assert (Hpay : payload entry = b) by reflexivity.
  assert (Hlive : live (now w1 + d) entry = true).
  { unfold live, entry. cbn [expiry]. rewrite Hnow.
    destruct (0 <? eff) eqn:E; [| done].
    apply Z.ltb_lt in E. apply Z.ltb_lt. specialize (Hd E). lia. }
  assert (Hf1' : nth 0 (faults w1) false = false)
    by (by rewrite Hfl, !nth_tl).
  subst o2. rewrite E1. cbn [value_of world_of].
  split; [reflexivity |].
  clearbody entry. clear Hst Hfl Hl Hf0 Hf1 Hf2 Hf3 Hgen Hd E1 Hfree.
  subst k. unfold GetOrRefresh. rewrite Hp. rewrite <- Hnow, <- Hgc.
  unfold tick. unfold_ops. crunch; done.
Qed.

End SecondCall.

Lemma second_call_served_from_cache_witness :
  let o1 := GetOrRefresh cfgT "a" (constGen true) [] (emptyWorld bool 0) in
  let o2 := GetOrRefresh cfgT "a" (constGen true) []
              (tick Time.Second (world_of o1)) in
  value_of o1
  = Some ({| Value := true; FromCache := false; CachedAt := Some 0 |},
          None) /\
  value_of o2
  = Some ({| Value := true; FromCache := true;
             CachedAt := Some Time.Second |}, None).
Proof.
  intros o1 o2.
  destruct (second_call_served_from_cache cfgT "a" (constGen true) [] true
              bytes_true (emptyWorld bool 0) Time.Second)
    as (H1 & H2 & _).
  - exact boolCodec_representable.
  - reflexivity.
  - reflexivity.
  - intros n _. unfold fault_at. by destruct n as [| [| [| [| n]]]].
  - reflexivity.
  - reflexivity.
  - reflexivity.
  - reflexivity.
  - split; [exact H1 | exact H2].
Defined.

Section Goroutines.

Context {T : Type} {C : Codec T}.
Variable cfg : handlerConfig.

(** X27. A [GetOrRefresh] starts at most one goroutine, and which one is
    fixed by its policy: the standard background refresh (on a hit), or on
    a miss the background write of the generated value under
    ReturnThenAsyncWrite, the stale refresh under StaleWhileRevalidate, the
    delayed refresh-ahead with the effective threshold under RefreshAhead,
    the lock probe under CooperativeRefresh, and the recording of the
    creation time under ProbabilisticRefresh.  Each of them gets the key
    and the effective TTL of the call. *)
Theorem goroutines_started (key : string) (gen : Generator T)
  (opts : list CallOption) (w : World T) :
  let co := applyOpts opts in
  let eff := effectiveTTL cfg co in
  let p := effectiveMissPolicy cfg co in
  let o := GetOrRefresh cfg key gen opts w in
  exists l,
    spawned (world_of o) = spawned w ++ l /\
    (length l <= 1)%nat /\
    forall t, t ∈ l ->
      t = GoBackgroundRefresh key eff gen \/
      (p = MissPolicyReturnThenAsyncWrite /\
       exists v, gen (genCalls w) = inl v /\
                 t = GoBackgroundMissWrite key eff v) \/
      (p = MissPolicyStaleWhileRevalidate /\
       t = GoStaleRefresh key eff gen) \/
      (p = MissPolicyRefreshAhead /\
       t = GoScheduleRefreshAhead key eff gen (effectiveThreshold cfg co)) \/
      (p = MissPolicyCooperativeRefresh /\
       t = GoLockProbe (fullKey cfg key)) \/
      (p = MissPolicyProbabilisticRefresh /\
       t = GoEnableProbabilisticRefresh key eff gen (effectiveBeta cfg co)).
Proof.
  intros co eff p o. subst co eff p o. unfold GetOrRefresh.
  destruct (effectiveMissPolicy cfg (applyOpts opts));
    unfold_ops; unfold_ops; crunch.
  all: first
    [ exists []; split; [by rewrite app_nil_r |];
      split; [cbn; lia |]; intros ? Hin; by apply elem_of_nil in Hin
    | eexists [_]; split; [reflexivity |];
      split; [cbn; lia |]; intros ? Hin;
      apply list_elem_of_singleton in Hin; subst; eauto 12 ].
Qed.

End Goroutines.

(** *** Instances *)

Lemma Set_frame_witness :
  store (world_of (Set_ cfgT "a" true [] (emptyWorld bool 0)))
    !! fullKey cfgT "b"
  = store (emptyWorld bool 0) !! fullKey cfgT "b".
Proof. apply (Set_frame cfgT "a" "b"). discriminate. Defined.

Lemma GetOrRefresh_hit_witness :
  exists w' tr,
    GetOrRefresh cfgT "e" (constGen false) [WithoutBackgroundRefresh]
      (worldAfterSet cfgT)
    = Ret ({| Value := true; FromCache := true;
              CachedAt := Some Time.Second |}, None) w' tr /\
    gens tr = [].
Proof.
  destruct (GetOrRefresh_hit cfgT "e" (constGen false)
              [WithoutBackgroundRefresh] (worldAfterSet cfgT)
              (world_of (Get cfgT "e" (worldAfterSet cfgT)))
              {| Value := true; FromCache := true;
                 CachedAt := Some Time.Second |}
              (trace_of (Get cfgT "e" (worldAfterSet cfgT))))
    as (w' & tr & H & Hg & _); [reflexivity |].
  exists w', tr. split; [exact H | exact Hg].
Defined.

Lemma GetOrRefresh_miss_without_generation_witness :
  GetOrRefresh cfgT "a" (constGen true)
    [WithCallMissPolicy MissPolicyFailFast] (emptyWorld bool 0)
  = Ret ({| Value := false; FromCache := false; CachedAt := None |},
         Some ErrCacheMissFailFast)
      (emptyWorld bool 0) [EvRdbGet "t:a"].
Proof.
  destruct (GetOrRefresh_miss_without_generation cfgT "a" (constGen true)
              [WithCallMissPolicy MissPolicyFailFast] (emptyWorld bool 0))
    as [H _]; [reflexivity | reflexivity |].
  exact (H eq_refl).
Defined.

Lemma failing_generator_never_writes_witness :
  store (world_of (GetOrRefresh cfgT "a" (failGen 1) [] (emptyWorld bool 0)))
  = ∅.
Proof.
  destruct (failing_generator_never_writes cfgT "a" (failGen 1)
              (fun _ => ErrUser 1) [] 60 0 (emptyWorld bool 0))
    as [(_ & H & _) _]; [reflexivity |].
  exact H.
Defined.

Lemma background_tasks_never_park_witness :
  exists w' tr,
    run_task cfgT (GoBackgroundRefresh "d" 60 (constGen true))
      (world_of (Lock "t:d" (emptyWorld bool 0)))
    = Ret tt w' tr.
Proof.
  apply (background_tasks_never_park cfgT
           (GoBackgroundRefresh "d" 60 (constGen true))).
  intros fk. discriminate.
Defined.

Lemma GetOrRefresh_returns_witness :
  exists r w' tr,
    GetOrRefresh cfgT "a" (constGen true) [] (emptyWorld bool 0)
    = Ret r w' tr.
Proof.
  apply (GetOrRefresh_returns cfgT "a" (constGen true) []
           (emptyWorld bool 0)).
  left. reflexivity.
Defined.

Lemma keyedMutex_progress_witness :
  (exists l', keyedMutex.send "a" (keyedMutex.locks sysContended) = Some l')
  \/
  (exists j l',
      keyedMutex.procs sysContended !! j = Some (keyedMutex.Critical "a") /\
      keyedMutex.recv "a" (keyedMutex.locks sysContended) = Some l').
Proof.
  apply (keyedMutex_progress sysContended 1 "a" sysContended_reachable).
  reflexivity.
Defined.

Lemma keyedMutex_table_grows_witness :
  is_Some
    (keyedMutex.locks
       {| keyedMutex.locks := {[ "a" := 0%nat ]};
          keyedMutex.procs := [keyedMutex.AtLock "a"; keyedMutex.Idle] |}
     !! "a").
Proof.
  pose (s2 := {| keyedMutex.locks := ∅;
                 keyedMutex.procs := [keyedMutex.Idle; keyedMutex.Idle] |}).
  pose (s3 := {| keyedMutex.locks := {[ "a" := 0%nat ]};
                 keyedMutex.procs :=
                   [keyedMutex.AtLock "a"; keyedMutex.Idle] |}).
  assert (keyedMutex.step s2 s3) as H
    by exact (keyedMutex.step_Lock_ch s2 0 "a" eq_refl).
  destruct (keyedMutex_table_grows s2 s3 "a" H) as [_ H'].
  apply (H' 0%nat); [left; reflexivity | reflexivity].
Defined.

Lemma lock_then_release_witness :
  exists w1 w2 : World bool,
    Lock "k" (emptyWorld bool 0) = Ret (releaser "k") w1 [EvLock "k"] /\
    value_of (Lock "k" w1) = None /\
    releaser "k" w1 = Ret tt w2 [EvUnlock "k"] /\
    releaser "k" w2 = Block w2 [].
Proof.
  destruct (lock_then_release "k" (emptyWorld bool 0) eq_refl)
    as (w1 & w2 & w3 & H1 & _ & _ & H4 & _ & H6 & _ & _ & H9).
  exists w1, w2. repeat split; assumption.
Defined.
